(** * Capacity-expansion model: constraint rules and postprocessing

    A shallow embedding of the constraint rules of [OptSys.build_model] and
    of the discounting / levelised-cost routines of [optimizationModel.py].

    Conventions of the embedding.
    - Parameter values are rationals ([Q]); parameter bounds that default to
      [float('inf')] are values of [bound].  A constraint is a relation
      between real-valued expressions, and is read over [Q].
    - Where Python itself computes a number, the arithmetic is a parameter
      ([arithmetic]): [exact] is the arithmetic without rounding, [binary64]
      the one of Python floats.
    - Pyomo sets are lists in data order; [Fuel1] is an alias of [Fuel].
    - A Pyomo expression built by a rule is a term of [expr]; a native Python
      number is kept apart from it ([pyval]), because the rules test
      [isinstance(balance, bool)].
    - A rule either raises a Python exception or returns [Constraint.Skip],
      a relational expression, or [None] ([rule_out]).
    - Indexing a variable, an expression or a parameter ([m.x[i]]) outside
      the index set it was declared with raises [KeyError]; the rules that
      look one step back or ahead in time check the index they reach. *)

From Stdlib Require Import ZArith QArith Qpower Qabs List String Bool Lia Lqa.
From Stdlib Require Import SpecFloat.
Import ListNotations.

Open Scope Z_scope.

(** ** Python-level plumbing *)

Inductive pyerror : Type :=
| IndexError
| KeyError
| OverflowError
| PyomoException
| ValueError
| ZeroDivisionError.

Inductive result (A : Type) : Type :=
| Ok (a : A)
| Raise (e : pyerror).

Arguments Ok {A} a.
Arguments Raise {A} e.

Definition bind {A B : Type} (r : result A) (k : A -> result B) : result B :=
  match r with
  | Ok a => k a
  | Raise e => Raise e
  end.

Notation "x <- r ;; k" := (bind r (fun x => k))
  (at level 61, r at next level, right associativity).

(** [max(s)] and [min(s)] of a set: [ValueError] on the empty set. *)
Definition py_max (s : list Z) : result Z :=
  match s with
  | [] => Raise ValueError
  | x :: xs => Ok (fold_left Z.max xs x)
  end.

Definition py_min (s : list Z) : result Z :=
  match s with
  | [] => Raise ValueError
  | x :: xs => Ok (fold_left Z.min xs x)
  end.

(** [l[0]]: [IndexError] on the empty list. *)
Definition py_first {A : Type} (l : list A) : result A :=
  match l with
  | [] => Raise IndexError
  | x :: _ => Ok x
  end.

Definition py_len {A : Type} (l : list A) : Z := Z.of_nat (List.length l).

(** [range(n)] *)
Definition py_range (n : Z) : list Z := map Z.of_nat (seq 0 (Z.to_nat n)).

Definition Qltb (a b : Q) : bool := negb (Qle_bool b a).

(** A parameter that may be [float('inf')]. *)
Inductive bound : Type :=
| Fin (q : Q)
| Inf.

(** [b > 0] *)
Definition bound_pos (b : bound) : bool :=
  match b with
  | Fin q => Qltb 0 q
  | Inf => true
  end.

Definition node := string.
Definition tech := string.
Definition fuel := string.

Definition in_set (x : string) (s : list string) : bool :=
  existsb (String.eqb x) s.

(** [x in s] for a set of integers. *)
Definition mem (x : Z) (s : list Z) : bool := existsb (Z.eqb x) s.

(** ** The model: sets and parameters used by the rules *)

Record model : Type := {
  (* temporal sets: [Hour], [Day] and [Year] are the sampled subsets of
     [Hour_All], [Day_All] and [Year_All] *)
  SubHour : list Z;
  Hour : list Z;
  Day : list Z;
  Year : list Z;
  Hour_All : list Z;
  Day_All : list Z;
  Year_All : list Z;
  (* technology, node and fuel sets *)
  Tech : list tech;
  StorageTech : list tech;
  Node : list node;
  Fuel : list fuel;
  VreFuel : list fuel;
  RefFuel : list fuel;
  (* switches *)
  Slack_switch : Z;
  Unit_cap_switch : Z;
  (* incidence *)
  E_input : tech -> fuel -> bool;
  E_output : tech -> fuel -> bool;
  Cap_of_input : tech -> bool;
  F_subst : fuel -> fuel -> bool;
  (* steps *)
  Delta_Y : Z;
  Delta_D : Z;
  Delta_H : Z;
  Delta_sH : Z;
  Y_start : Z;
  Scale_Y_to : Z;
  Scale_D_to : Z;
  Scale_H_to : Z;
  (* demand *)
  F_demand : node -> fuel -> Z -> Z -> Z -> Z -> Q;
  F_edp : node -> tech -> Z -> Z -> Z -> Z -> Q;
  V_edp : node -> tech -> Z -> Z -> Z -> Z -> Q;
  Aux_ed : tech -> Q;
  (* capacities *)
  Unit_cap : node -> tech -> Z -> Q;
  Max_inst_cap : node -> tech -> Z -> bound;
  Max_inst_storage_vol : node -> tech -> Z -> bound;
  Start_storage_level : node -> tech -> Q;
  Window_rolling_reserve : node -> tech -> fuel -> Z;
  F_rolling_reserve : node -> tech -> fuel -> Q;
  Eff : tech -> Q;
  (* markets *)
  Max_f_export_timeseries : node -> fuel -> Z -> bound;
  Max_f_import_timeseries : node -> fuel -> Z -> bound;
  Max_f_import : node -> fuel -> bound;
  Max_f_export : node -> fuel -> bound;
  Max_f_injection : node -> fuel -> bound;
  F_fix_quant_import_size : node -> fuel -> Q;
  Max_f_fix_quant_import : node -> fuel -> Z;
  Share_const_cons_system : fuel -> Q;
  (* economics *)
  Discount_rate : Q
}.

(** [m.Fuel1 = pyo.SetOf(m.Fuel)] *)
Definition Fuel1 (m : model) : list fuel := Fuel m.

(** [m.Tech - m.StorageTech] *)
Definition Tech_minus_StorageTech (m : model) : list tech :=
  filter (fun T => negb (in_set T (StorageTech m))) (Tech m).

(** [sum(m.F_subst[F1,F2] for F2 in m.Fuel1)] *)
Definition F_subst_rowsum (m : model) (F1 : fuel) : Z :=
  fold_left Z.add (map (fun F2 => Z.b2z (F_subst m F1 F2)) (Fuel1 m)) 0.

(** [[F for F in m.Fuel if m.E_input[T, F]]] *)
Definition input_fuels (m : model) (T : tech) : list fuel :=
  filter (fun F => E_input m T F) (Fuel m).

(** [[F for F in m.Fuel if m.E_output[T, F]]] *)
Definition output_fuels (m : model) (T : tech) : list fuel :=
  filter (fun F => E_output m T F) (Fuel m).

(** ** Decision variables, expressions and constraints *)

Inductive var : Type :=
| cap_add (N : node) (T : tech) (Y : Z)
| cap_sub (N : node) (T : tech) (Y : Z)
| unit_add (N : node) (T : tech) (Y : Z)
| unit_sub (N : node) (T : tech) (Y : Z)
| storage_vol_add (N : node) (T : tech) (Y : Z)
| storage_vol_sub (N : node) (T : tech) (Y : Z)
| f_cons (N : node) (T : tech) (F F1 : fuel) (Y D H sH : Z)
| f_prod (N : node) (T : tech) (F1 : fuel) (Y D H sH : Z)
| f_import (N : node) (F1 : fuel) (Y D H sH : Z)
| f_export (N : node) (F F1 : fuel) (Y D H sH : Z)
| f_delivery (N : node) (F F1 : fuel) (Y D H sH : Z)
| f_supply_cons_system (N : node) (F F1 : fuel) (Y D H sH : Z)
| f_export_timeseries (N : node) (F F1 : fuel) (Y D H sH : Z)
| f_import_timeseries (N : node) (F1 : fuel) (Y D H sH : Z)
| f_fix_quant_import (N : node) (F1 : fuel) (Y D H sH : Z)
| f_slack_pos (N : node) (F1 : fuel) (Y D H sH : Z)
| f_slack_neg (N : node) (F1 : fuel) (Y D H sH : Z)
| storage_energy_level (N : node) (T : tech) (F1 : fuel) (Y D H sH : Z)
| start_storage_energy_level (N : node) (T : tech) (F1 : fuel).

(** Named [pyo.Expression] components that other rules refer to. *)
Inductive component : Type :=
| inst_cap (N : node) (T : tech) (Y : Z)
| inst_storage_vol (N : node) (T : tech) (Y : Z)
| Delta_T
| Scale_H
| Scale_D.

Inductive expr : Type :=
| ENum (q : Q)
| EVar (v : var)
| ERef (c : component)
| EAdd (a b : expr)
| ESub (a b : expr)
| EMul (a b : expr)
| EDiv (a b : expr).

Inductive relation : Type :=
| REq (lhs rhs : expr)
| RLe (lhs rhs : expr).

(** What a constraint rule hands back to Pyomo. [RuleNone] is Python's
    [None], which [pyo.Constraint] rejects while the model is constructed. *)
Inductive rule_out : Type :=
| Skip
| Constr (c : relation)
| RuleNone.

(** A solver assignment gives every variable a value; [rho] gives the value
    of the named expression components. *)
Definition assignment := var -> Q.
Definition components := component -> Q.

Fixpoint eval (sigma : assignment) (rho : components) (e : expr) : Q :=
  match e with
  | ENum q => q
  | EVar v => sigma v
  | ERef c => rho c
  | EAdd a b => (eval sigma rho a + eval sigma rho b)%Q
  | ESub a b => (eval sigma rho a - eval sigma rho b)%Q
  | EMul a b => (eval sigma rho a * eval sigma rho b)%Q
  | EDiv a b => (eval sigma rho a / eval sigma rho b)%Q
  end.

Definition holds (sigma : assignment) (rho : components) (c : relation) : Prop :=
  match c with
  | REq l r => (eval sigma rho l == eval sigma rho r)%Q
  | RLe l r => (eval sigma rho l <= eval sigma rho r)%Q
  end.

(** ** Unit sizing (lines 1012-1029) *)

Definition unit_add_constraint_rule (m : model) (N : node) (T : tech) (Y : Z)
  : rule_out :=
  if Unit_cap_switch m =? 1 then
    Constr (REq (EVar (cap_add N T Y))
                (EMul (EVar (unit_add N T Y)) (ENum (Unit_cap m N T Y))))
  else Skip.

Definition unit_sub_constraint_rule (m : model) (N : node) (T : tech) (Y : Z)
  : rule_out :=
  if Unit_cap_switch m =? 1 then
    Constr (REq (EVar (cap_sub N T Y))
                (EMul (EVar (unit_sub N T Y)) (ENum (Unit_cap m N T Y))))
  else Skip.

(** [unit_add] and [unit_sub] are declared [within=pyo.NonNegativeIntegers]. *)
Definition integral_units (sigma : assignment) : Prop :=
  forall N T Y,
    (exists k, 0 <= k /\ (sigma (unit_add N T Y) == inject_Z k)%Q) /\
    (exists k, 0 <= k /\ (sigma (unit_sub N T Y) == inject_Z k)%Q).

(** A rule's outcome is respected by an assignment: a skipped constraint
    imposes nothing, an emitted one must hold. *)
Definition respects (sigma : assignment) (rho : components) (o : rule_out) : Prop :=
  match o with
  | Skip => True
  | Constr c => holds sigma rho c
  | RuleNone => False
  end.

(** ** Native numbers versus Pyomo expressions *)

Inductive pyval : Type :=
| Num (q : Q)
| Expr (e : expr).

Definition to_expr (v : pyval) : expr :=
  match v with
  | Num q => ENum q
  | Expr e => e
  end.

(** [a + b]: two native numbers add natively, anything else builds a sum. *)
Definition py_add (a b : pyval) : pyval :=
  match a, b with
  | Num x, Num y => Num (x + y)
  | _, _ => Expr (EAdd (to_expr a) (to_expr b))
  end.

(** [sum(...)] over a generator of Pyomo variables: starts from the int 0. *)
Definition py_sum (l : list expr) : pyval :=
  fold_left py_add (map Expr l) (Num 0).

(** [x if c else 0] *)
Definition py_if (c : bool) (e : expr) : pyval :=
  if c then Expr e else Num 0.

Inductive pyrel : Type :=
| PyBool (b : bool)
| PyRel (c : relation).

(** [a == b]: a Python [bool] on two native numbers, a relational
    expression otherwise. *)
Definition py_eq (a b : pyval) : pyrel :=
  match a, b with
  | Num x, Num y => PyBool (Qeq_bool x y)
  | _, _ => PyRel (REq (to_expr a) (to_expr b))
  end.

Definition Qsum (l : list Q) : Q := fold_left Qplus l 0%Q.

(** [a / b] on native numbers *)
Definition py_div (a b : Q) : result Q :=
  if Qeq_bool b 0 then Raise ZeroDivisionError else Ok (a / b)%Q.

(** ** The length of a time step (lines 551-554) *)

(** [m.Delta_T = pyo.Expression(rule=calc_delta_t)], in hours: the real
    number the constraints are read with. *)
Definition calc_delta_t (m : model) : Q :=
  (1 / inject_Z (py_len (SubHour m)))%Q.

(** ** Capacity and storage-volume motion (lines 557-578) *)

(** [m.inst_cap] is indexed by [Node x Tech x Year]: the look-back
    [m.inst_cap[N, T, Y - m.Delta_Y]] raises [KeyError] when [Y - Delta_Y] is
    not a sampled year.  With [Delta_Y = 0] the expression of a year other
    than the start year refers to itself; what Pyomo makes of that is not
    modelled, and the properties below take a positive step. *)
Definition cap_motion_rule (m : model) (N : node) (T : tech) (Y : Z)
  : result expr :=
  if Y =? Y_start m then Ok (EVar (cap_add N T Y))
  else if mem (Y - Delta_Y m) (Year m) then
    Ok (ESub (EAdd (ERef (inst_cap N T (Y - Delta_Y m))) (EVar (cap_add N T Y)))
             (EVar (cap_sub N T Y)))
  else Raise KeyError.

Definition storage_vol_motion_rule (m : model) (N : node) (StoreT : tech) (Y : Z)
  : result expr :=
  if Y =? Y_start m then Ok (EVar (storage_vol_add N StoreT Y))
  else if mem (Y - Delta_Y m) (Year m) then
    Ok (ESub (EAdd (ERef (inst_storage_vol N StoreT (Y - Delta_Y m)))
                   (EVar (storage_vol_add N StoreT Y)))
             (EVar (storage_vol_sub N StoreT Y)))
  else Raise KeyError.

(** [m.inst_cap = pyo.Expression(m.Node, m.Tech, m.Year, rule=...)] and
    [m.inst_storage_vol = pyo.Expression(m.Node, m.StorageTech, m.Year, ...)]:
    the components are built when the rule returns at every declared index,
    and the value of a component there is the value of the expression the
    rule returned. *)
Definition motion_values (m : model) (sigma : assignment) (rho : components)
  : Prop :=
  (forall N T Y, In N (Node m) -> In T (Tech m) -> In Y (Year m) ->
     exists e, cap_motion_rule m N T Y = Ok e /\
               (rho (inst_cap N T Y) == eval sigma rho e)%Q) /\
  (forall N T Y, In N (Node m) -> In T (StorageTech m) -> In Y (Year m) ->
     exists e, storage_vol_motion_rule m N T Y = Ok e /\
               (rho (inst_storage_vol N T Y) == eval sigma rho e)%Q).

(** ** Temporal stepping *)

Definition time_stamp : Type := Z * Z * Z * Z.

(** [(Y, D, H, sH)] is in [Year x Day x Hour x SubHour], the index set of
    the variables that carry a time stamp. *)
Definition sampledb (m : model) (t : time_stamp) : bool :=
  let '(Y, D, H, sH) := t in
  mem Y (Year m) && mem D (Day m) && mem H (Hour m) && mem sH (SubHour m).

(** The forward step of [storage_energy_level_rolling_reserve_rule]
    (lines 639-655). *)
Definition next_time_step (m : model) (t : time_stamp) : result time_stamp :=
  let '(Y, D, H, sH) := t in
  let sH := sH + Delta_sH m in
  max_sH <- py_max (SubHour m) ;;
  if max_sH <? sH then
    sH <- py_min (SubHour m) ;;
    let H := H + Delta_H m in
    max_H <- py_max (Hour m) ;;
    if max_H <? H then
      H <- py_min (Hour m) ;;
      let D := D + Delta_D m in
      max_D <- py_max (Day m) ;;
      if max_D <? D then
        D <- py_min (Day m) ;;
        let Y := Y + Delta_Y m in
        max_Y <- py_max (Year m) ;;
        if max_Y <? Y then
          Y <- py_min (Day m) ;;
          Ok (Y, D, H, sH)
        else Ok (Y, D, H, sH)
      else Ok (Y, D, H, sH)
    else Ok (Y, D, H, sH)
  else Ok (Y, D, H, sH).

(** The backward step of [storage_energy_balance_constraint_rule]
    (lines 1331-1344). *)
Definition previous_time_stamp (m : model) (t : time_stamp) : result time_stamp :=
  let '(Y, D, H, sH) := t in
  let preSubH := sH - Delta_sH m in
  let preH := H in
  let preD := D in
  let preY := Y in
  min_sH <- py_min (SubHour m) ;;
  if preSubH <? min_sH then
    preSubH <- py_max (SubHour m) ;;
    let preH := preH - Delta_H m in
    min_H <- py_min (Hour m) ;;
    if preH <? min_H then
      preH <- py_max (Hour m) ;;
      let preD := preD - Delta_D m in
      min_D <- py_min (Day m) ;;
      if preD <? min_D then
        preD <- py_max (Day m) ;;
        let preY := preY - Delta_Y m in
        Ok (preY, preD, preH, preSubH)
      else Ok (preY, preD, preH, preSubH)
    else Ok (preY, preD, preH, preSubH)
  else Ok (preY, preD, preH, preSubH).

(** ** Python's arithmetic

    Where the code computes with numbers (rather than building a Pyomo
    expression over variables) it computes with Python numbers, in practice
    binary64 floats: [+], [*], [/] and [**] round, [**] may overflow, and
    what they return is fixed by the interpreter and the C library, not by
    this repository.  The functions below therefore take the arithmetic as
    a parameter: [num] is the type of Python numbers, [number q] the number
    that holds the parameter value [q].  [exact] is the arithmetic without
    rounding. *)

Record arithmetic : Type := {
  num : Type;
  number : Q -> num;
  add : num -> num -> num;
  mul : num -> num -> num;
  (** [a / b]: [ZeroDivisionError] on a zero divisor *)
  div : num -> num -> result num;
  (** [a ** e] for an integer [e]: [OverflowError] where the result is out
      of range, [ZeroDivisionError] for [0.0 ** e] with [e < 0] *)
  pow : num -> Z -> result num;
  (** [a <= b] *)
  leb : num -> num -> bool
}.

Definition exact : arithmetic :=
  {| num := Q;
     number := fun q => q;
     add := Qplus;
     mul := Qmult;
     div := py_div;
     pow := fun a e =>
              if Qeq_bool a 0 && (e <? 0) then Raise ZeroDivisionError
              else Ok (a ^ e)%Q;
     leb := Qle_bool |}.

(** Python's [float]: IEEE 754 binary64, every operation rounded to the
    nearest float, ties to even. *)
Definition float_of_Z (z : Z) : spec_float :=
  binary_normalize 53 1024 z 0 false.

(** The float nearest to [q], for a [q] whose numerator and denominator are
    floats themselves. *)
Definition float_of_Q (q : Q) : spec_float :=
  SFdiv 53 1024 (float_of_Z (Qnum q)) (float_of_Z (Zpos (Qden q))).

Definition float_is_zero (x : spec_float) : bool :=
  match x with
  | S754_zero _ => true
  | _ => false
  end.

(** The arithmetic of binary64 floats.  [**] is the C library's [pow], which
    the language does not fix: it is left as the parameter [c_pow]. *)
Definition binary64 (c_pow : spec_float -> Z -> result spec_float)
  : arithmetic :=
  {| num := spec_float;
     number := float_of_Q;
     add := SFadd 53 1024;
     mul := SFmul 53 1024;
     div := fun a b =>
              if float_is_zero b then Raise ZeroDivisionError
              else Ok (SFdiv 53 1024 a b);
     pow := c_pow;
     leb := SFleb |}.

(** ** Rolling reserve (lines 630-663) *)

(** [m.F_demand[N, F, Y, D, H, sH]]: the parameter is indexed by
    [Year_All x Day_All x Hour_All x SubHour] and has a default, so the
    lookup returns a number at every declared index and raises [KeyError]
    at any other. *)
Definition F_demand_at (m : model) (N : node) (F : fuel) (t : time_stamp)
  : result Q :=
  let '(Y, D, H, sH) := t in
  if mem Y (Year_All m) && mem D (Day_All m) && mem H (Hour_All m)
     && mem sH (SubHour m)
  then Ok (F_demand m N F Y D H sH)
  else Raise KeyError.

(** The body of the [for i in range(...)] loop: step, then add the demand
    found at the new time stamp. *)
Fixpoint rolling_walk (ar : arithmetic) (m : model) (N : node) (F : fuel)
  (n : nat) (t : time_stamp) (rolling_sum : num ar)
  : result (time_stamp * num ar) :=
  match n with
  | O => Ok (t, rolling_sum)
  | S n' =>
      t' <- next_time_step m t ;;
      d <- F_demand_at m N F t' ;;
      rolling_walk ar m N F n' t' (add ar rolling_sum (number ar d))
  end.

(** What the rule hands back: the int [0], or the product of a number with
    the expression [m.Delta_T]. *)
Inductive reserve (A : Type) : Type :=
| NoReserve
| TimesDeltaT (c : A).

Arguments NoReserve {A}.
Arguments TimesDeltaT {A} c.

Definition storage_energy_level_rolling_reserve_rule (ar : arithmetic)
  (m : model) (N : node) (StoreT : tech) (F : fuel) (Y D H sH : Z)
  : result (reserve (num ar)) :=
  if (0 <? Window_rolling_reserve m N StoreT F)
     && Qltb 0 (F_rolling_reserve m N StoreT F) then
    r <- rolling_walk ar m N F
           (Z.to_nat (Window_rolling_reserve m N StoreT F * py_len (SubHour m)))
           (Y, D, H, sH) (number ar 0) ;;
    Ok (TimesDeltaT
          (mul ar (snd r) (number ar (F_rolling_reserve m N StoreT F))))
  else Ok NoReserve.

(** ** Fuel balance (lines 1074-1123) *)

(** [sum(m.F_subst[F1,F2] for F2 in m.Fuel1) == 1] *)
Definition settles (m : model) (F1 : fuel) : bool := F_subst_rowsum m F1 =? 1.

(** Storage is allowed at [(N, T, Y)]. *)
Definition storage_allowed (m : model) (N : node) (T : tech) (Y : Z) : bool :=
  bound_pos (Max_inst_cap m N T Y) && bound_pos (Max_inst_storage_vol m N T Y).

Section FuelBalance.

Variable m : model.
Variables (N : node) (F1 : fuel) (Y D H sH : Z).

Definition f_cons_temp : pyval :=
  py_sum
    (flat_map
       (fun T =>
          if bound_pos (Max_inst_cap m N T Y) then
            map (fun F => EVar (f_cons N T F F1 Y D H sH))
              (filter
                 (fun F =>
                    F_subst m F F1
                    && (E_input m T F
                        || F_subst m "Electricity"%string F1
                           && (Qltb 0 (F_edp m N T Y D H sH)
                               || Qltb 0 (V_edp m N T Y D H sH)
                               || Qltb 0 (Aux_ed m T))))
                 (Fuel m))
          else [])
       (Tech_minus_StorageTech m)).

Definition f_prod_temp : pyval :=
  py_sum
    (map (fun T => EVar (f_prod N T F1 Y D H sH))
       (filter (fun T => bound_pos (Max_inst_cap m N T Y) && E_output m T F1)
          (Tech_minus_StorageTech m))).

Definition f_charge_temp : pyval :=
  py_sum
    (flat_map
       (fun T =>
          if storage_allowed m N T Y then
            map (fun F => EVar (f_cons N T F F1 Y D H sH))
              (filter (fun F => E_input m T F && F_subst m F F1 && settles m F1)
                 (Fuel m))
          else [])
       (StorageTech m)).

Definition f_discharge_temp : pyval :=
  py_sum
    (flat_map
       (fun T =>
          if storage_allowed m N T Y then
            map (fun F => EVar (f_prod N T F1 Y D H sH))
              (filter (fun F => E_output m T F && F_subst m F F1 && settles m F1)
                 (Fuel m))
          else [])
       (StorageTech m)).

Definition f_import_temp : pyval :=
  py_if (bound_pos (Max_f_import m N F1)) (EVar (f_import N F1 Y D H sH)).

Definition f_fix_quant_import_temp : pyval :=
  py_if (0 <? Max_f_fix_quant_import m N F1)
    (EDiv (EMul (EVar (f_fix_quant_import N F1 Y D H sH))
                (ENum (F_fix_quant_import_size m N F1)))
          (ENum (calc_delta_t m))).

Definition f_import_timeseries_temp : pyval :=
  py_if (bound_pos (Max_f_import_timeseries m N F1 Y))
    (EVar (f_import_timeseries N F1 Y D H sH)).

Definition f_delivery_temp : pyval :=
  py_sum
    (map (fun F => EVar (f_delivery N F F1 Y D H sH))
       (filter
          (fun F => F_subst m F F1 && Qltb 0 (F_demand m N F Y D H sH)
                    && settles m F1)
          (Fuel m))).

Definition f_supply_cons_system_temp : pyval :=
  py_sum
    (map (fun F => EVar (f_supply_cons_system N F F1 Y D H sH))
       (filter
          (fun F => F_subst m F F1 && Qltb 0 (Share_const_cons_system m F)
                    && settles m F1)
          (Fuel m))).

Definition f_export_temp : pyval :=
  py_sum
    (map (fun F => EVar (f_export N F F1 Y D H sH))
       (filter
          (fun F => F_subst m F F1
                    && (bound_pos (Max_f_export m N F)
                        || bound_pos (Max_f_injection m N F))
                    && settles m F1)
          (Fuel m))).

Definition f_export_timeseries_temp : pyval :=
  py_sum
    (map (fun F => EVar (f_export_timeseries N F F1 Y D H sH))
       (filter
          (fun F => F_subst m F F1
                    && bound_pos (Max_f_export_timeseries m N F Y)
                    && settles m F1)
          (Fuel m))).

Definition f_slack_pos_temp : pyval :=
  py_if (Slack_switch m =? 1) (EVar (f_slack_pos N F1 Y D H sH)).

Definition f_slack_neg_temp : pyval :=
  py_if (Slack_switch m =? 1) (EVar (f_slack_neg N F1 Y D H sH)).

(** Left and right side of [balance]. *)
Definition balance_supply : pyval :=
  py_add (py_add (py_add (py_add (py_add (py_add
    f_prod_temp f_discharge_temp) f_import_temp) f_fix_quant_import_temp)
    f_import_timeseries_temp) f_slack_pos_temp) f_slack_neg_temp.

Definition balance_use : pyval :=
  py_add (py_add (py_add (py_add (py_add
    f_cons_temp f_supply_cons_system_temp) f_charge_temp) f_delivery_temp)
    f_export_temp) f_export_timeseries_temp.

Definition balance : pyrel := py_eq balance_supply balance_use.

(** The three-way filter on [balance] (lines 1113-1118). *)
Definition balance_filter (b : pyrel) : rule_out :=
  match b with
  | PyRel c => Constr c
  | PyBool true => Skip
  | PyBool false => RuleNone
  end.

(** The guard of the rule (line 1077). *)
Definition balance_settled : bool :=
  settles m F1 && negb (in_set F1 (VreFuel m)).

Definition fuel_balance_constraint_rule : rule_out :=
  if balance_settled then balance_filter balance else Skip.

End FuelBalance.

(** ** Storage level constraints (lines 1288-1357) *)

(** The start levels summed by [start_storage_energy_level_constraint_rule]. *)
Definition settlement_fuels_of (m : model) (F : fuel) : list fuel :=
  filter (fun F1 => F_subst m F F1 && settles m F1) (Fuel1 m).

Definition start_storage_energy_level_constraint_rule (m : model) (N : node)
  (StoreT : tech) : result rule_out :=
  max_Y <- py_max (Year m) ;;
  if storage_allowed m N StoreT max_Y then
    F <- py_first (input_fuels m StoreT) ;;
    min_Y <- py_min (Year m) ;;
    Ok (Constr
          (REq (to_expr
                  (py_sum (map (fun F1 => EVar (start_storage_energy_level N StoreT F1))
                             (settlement_fuels_of m F))))
               (EMul (ENum (Start_storage_level m N StoreT))
                     (ERef (inst_storage_vol N StoreT min_Y)))))
  else Ok Skip.

Definition end_storage_energy_level_constraint_rule (m : model) (N : node)
  (StoreT : tech) (F1 : fuel) : result rule_out :=
  F <- py_first (input_fuels m StoreT) ;;
  max_Y <- py_max (Year m) ;;
  if storage_allowed m N StoreT max_Y && F_subst m F F1 && settles m F1 then
    max_D <- py_max (Day m) ;;
    max_H <- py_max (Hour m) ;;
    max_sH <- py_max (SubHour m) ;;
    Ok (Constr
          (REq (EVar (storage_energy_level N StoreT F1 max_Y max_D max_H max_sH))
               (EVar (start_storage_energy_level N StoreT F1))))
  else Ok Skip.

(** [preY < m.Y_start or preY < min(m.Year)] *)
Definition before_first_step (m : model) (preY : Z) : result bool :=
  if preY <? Y_start m then Ok true
  else min_Y <- py_min (Year m) ;; Ok (preY <? min_Y).

(** [m.storage_energy_level] is indexed by the sampled time stamps: reading
    it at a previous time stamp that is not sampled raises [KeyError]. *)
Definition storage_energy_balance_constraint_rule (m : model) (N : node)
  (StoreT : tech) (F1 : fuel) (Y D H sH : Z) : result rule_out :=
  if storage_allowed m N StoreT Y && settles m F1 then
    F <- py_first (input_fuels m StoreT) ;;
    if negb (F_subst m F F1) then Ok Skip
    else
      let charge :=
        EMul (EMul (EVar (f_cons N StoreT F F1 Y D H sH)) (ENum (Eff m StoreT)))
             (ENum (calc_delta_t m)) in
      if Qeq_bool (Eff m StoreT) 0 then Raise ZeroDivisionError
      else
        let discharge :=
          EMul (EDiv (EVar (f_prod N StoreT F1 Y D H sH)) (ENum (Eff m StoreT)))
               (ENum (calc_delta_t m)) in
        pre <- previous_time_stamp m (Y, D, H, sH) ;;
        let '(preY, preD, preH, preSubH) := pre in
        first <- before_first_step m preY ;;
        preLevel <-
          (if first then Ok (EVar (start_storage_energy_level N StoreT F1))
           else if sampledb m pre then
             Ok (EVar (storage_energy_level N StoreT F1 preY preD preH preSubH))
           else Raise KeyError) ;;
        Ok (Constr
              (REq (EVar (storage_energy_level N StoreT F1 Y D H sH))
                   (ESub (EAdd preLevel charge) discharge)))
  else Ok Skip.

(** ** Discounting (lines 1495-1513) *)

(** The part of [OptSys] the postprocessing reads: [self.start_disc] and
    [self.zero_threshold]. *)
Record OptSys : Type := {
  start_disc_capex : Z;
  start_disc_opex : Z;
  zero_threshold : Q
}.

(** [start_disc = {'capex': 0, 'opex': 1}], [zero_threshold = 1e-6] *)
Definition default_OptSys : OptSys :=
  {| start_disc_capex := 0; start_disc_opex := 1; zero_threshold := 1 # 1000000 |}.

(** [int(a / b)] on non-negative integers *)
Definition py_int_div (a b : Z) : result Z :=
  if b =? 0 then Raise ZeroDivisionError else Ok (Z.quot a b).

(** [missing_years] (line 1509) *)
Definition missing_years (m : model) (y_offset considered_years : Z) : list Z :=
  map (fun i => Scale_Y_to m - i - (1 - y_offset))
    (py_range (Scale_Y_to m - considered_years)).

(** [sum(...)] over a generator of numbers: the terms are computed one
    after the other and added to the running total, which starts at the
    int 0; the first term that raises stops the sum. *)
Fixpoint sum_from (ar : arithmetic) (total : num ar)
  (terms : list (result (num ar))) : result (num ar) :=
  match terms with
  | [] => Ok total
  | t :: rest => x <- t ;; sum_from ar (add ar total x) rest
  end.

Definition py_sum_numbers (ar : arithmetic) (terms : list (result (num ar)))
  : result (num ar) :=
  sum_from ar (number ar 0) terms.

(** [value * r_frac**e] *)
Definition discounted (ar : arithmetic) (value r_frac : num ar) (e : Z)
  : result (num ar) :=
  w <- pow ar r_frac e ;; Ok (mul ar value w).

(** [opex] holds the values of [model.opex]. *)
Definition calc_disc_opex (ar : arithmetic) (self : OptSys) (m : model)
  (opex : node -> tech -> Z -> num ar) (T : tech) : result (num ar) :=
  Scale_Y_int <- py_int_div (Scale_Y_to m) (py_len (Year m)) ;;
  r_frac <- div ar (number ar 1)
              (add ar (number ar 1) (number ar (Discount_rate m))) ;;
  let y_offset := start_disc_opex self in
  let considered_years := py_len (Year m) * Scale_Y_int in
  max_Y <- py_max (Year m) ;;
  sampled_years <-
    py_sum_numbers ar
      (flat_map
         (fun Y =>
            flat_map
              (fun Y2 =>
                 map (fun N =>
                        discounted ar (opex N T Y) r_frac
                          (Y2 + y_offset + (Y - 1) * Scale_Y_int))
                   (Node m))
              (py_range Scale_Y_int))
         (Year m)) ;;
  tail <-
    py_sum_numbers ar
      (flat_map
         (fun Y => map (fun N => discounted ar (opex N T max_Y) r_frac Y)
                     (Node m))
         (missing_years m y_offset considered_years)) ;;
  Ok (add ar sampled_years tail).

(** ** Full-load hours (lines 1816-1833) *)

(** [if inst_cap == 0:] asks Pyomo for the truth value of a relational
    expression over a component of the solved model.  Pyomo is not part of
    the repository and its releases differ: older ones evaluate the
    relation on the current values, recent ones (6.x) refuse the conversion
    with [PyomoException].  The behaviour is a parameter of the rule. *)
Inductive relation_truth : Type :=
| OnValues
| Refused.

Definition py_truth (pt : relation_truth) (on_values : bool) : result bool :=
  match pt with
  | OnValues => Ok on_values
  | Refused => Raise PyomoException
  end.

(** [sum(m.f_cons[N,T,F,F1,Y,D,H,sH] for F1 in model.Fuel1
        if model.F_subst[F,F1] for D in m.Day for H in m.Hour
        for sH in m.SubHour) * m.Delta_T * m.Scale_H * m.Scale_D] *)
Definition flh_load_cons (m : model) (N : node) (T : tech) (F : fuel) (Y : Z)
  : expr :=
  EMul
    (EMul
       (EMul
          (to_expr
             (py_sum
                (flat_map
                   (fun F1 =>
                      flat_map
                        (fun D =>
                           flat_map
                             (fun H =>
                                map (fun sH => EVar (f_cons N T F F1 Y D H sH))
                                  (SubHour m))
                             (Hour m))
                        (Day m))
                   (filter (fun F1 => F_subst m F F1) (Fuel1 m)))))
          (ERef Delta_T))
       (ERef Scale_H))
    (ERef Scale_D).

(** [sum(m.f_prod[N,T,F1,Y,D,H,sH] for D in m.Day for H in m.Hour
        for sH in m.SubHour) * m.Delta_T * m.Scale_H * m.Scale_D] *)
Definition flh_load_prod (m : model) (N : node) (T : tech) (F1 : fuel) (Y : Z)
  : expr :=
  EMul
    (EMul
       (EMul
          (to_expr
             (py_sum
                (flat_map
                   (fun D =>
                      flat_map
                        (fun H =>
                           map (fun sH => EVar (f_prod N T F1 Y D H sH))
                             (SubHour m))
                        (Hour m))
                   (Day m))))
          (ERef Delta_T))
       (ERef Scale_H))
    (ERef Scale_D).

(** The rule is run on the solved model: [rho] holds the value of
    [m.inst_cap].  It hands back the int 0 or the quotient expression. *)
Definition flh_rule (pt : relation_truth) (m : model) (rho : components)
  (N : node) (T : tech) (Y : Z) : result pyval :=
  let inst_cap := inst_cap N T Y in
  zero <- py_truth pt (Qeq_bool (rho inst_cap) 0) ;;
  if zero then Ok (Num 0)
  else
    load <- (if Cap_of_input m T then
               F <- py_first (input_fuels m T) ;;
               Ok (flh_load_cons m N T F Y)
             else
               F1 <- py_first (output_fuels m T) ;;
               Ok (flh_load_prod m N T F1 Y)) ;;
    Ok (Expr (EDiv load (ERef inst_cap))).

(** ** The LCOE fixed-point loop (lines 2029-2060, 2103-2113) *)

Record lcoe_state : Type := {
  lcoEnergy_mean : node -> fuel -> Z -> Q;
  pre_lcoe : list (fuel * Q);
  delta_lcoe : bound
}.

(** The tracker update inside [update_tech_LCOEnergy]: it runs once, at the
    first (node, year) pair, and leaves the state alone when there is none. *)
Definition track_delta (N : node) (Y : Z) (s : lcoe_state) : lcoe_state :=
  let step (acc : Q * list (fuel * Q)) (entry : fuel * Q) :=
    let lcoe := lcoEnergy_mean s N (fst entry) Y in
    ((fst acc + Qabs (lcoe - snd entry))%Q, snd acc ++ [(fst entry, lcoe)]) in
  let r := fold_left step (pre_lcoe s) (0%Q, []) in
  {| lcoEnergy_mean := lcoEnergy_mean s;
     pre_lcoe := snd r;
     delta_lcoe := Fin (fst r) |}.

Definition update_tech_LCOEnergy_delta (m : model) (s : lcoe_state) : lcoe_state :=
  match Node m, Year m with
  | N :: _, Y :: _ => track_delta N Y s
  | _, _ => s
  end.

(** [delta > threshold], with [float('inf')] above every threshold *)
Definition bound_gt (b : bound) (q : Q) : bool :=
  match b with
  | Fin d => Qltb q d
  | Inf => true
  end.

Definition min_inter : Z := 4.
Definition max_iter : Z := 20.

Section LcoeLoop.

Variable self : OptSys.
Variable m : model.

(** [mean_at i] is the table [lcoEnergy_mean] as recomputed at the head of
    the body in iteration [i]; the cost tables it is computed from are
    updated at the tail of the body and are not part of [lcoe_state]. *)
Variable mean_at : Z -> node -> fuel -> Z -> Q.

Definition loop_body (i : Z) (s : lcoe_state) : lcoe_state :=
  update_tech_LCOEnergy_delta m
    {| lcoEnergy_mean := mean_at i;
       pre_lcoe := pre_lcoe s;
       delta_lcoe := delta_lcoe s |}.

Definition loop_test (i : Z) (s : lcoe_state) : bool :=
  (bound_gt (delta_lcoe s) (zero_threshold self) || (i <? min_inter))
  && (i <? max_iter).

(** [while (...) and i < max_iter: ...; i += 1], with a step budget. *)
Fixpoint lcoe_while (budget : nat) (i : Z) (s : lcoe_state)
  : option (Z * lcoe_state) :=
  match budget with
  | O => None
  | S b =>
      if loop_test i s then lcoe_while b (i + 1) (loop_body i s)
      else Some (i, s)
  end.

Definition initial_state : lcoe_state :=
  {| lcoEnergy_mean := fun _ _ _ => 0%Q;
     pre_lcoe := map (fun F => (F, 0%Q)) (RefFuel m);
     delta_lcoe := Inf |}.

(** [calc_LCOEnergy]'s loop from [i = 1]; the number of times the body ran
    is [i - 1] at exit. *)
Definition calc_LCOEnergy_loop (budget : nat) : option (Z * lcoe_state) :=
  lcoe_while budget 1 initial_state.

Definition iterations_run (r : Z * lcoe_state) : Z := fst r - 1.

End LcoeLoop.

(** ** A small concrete system

    One node, a wind turbine and a battery, electricity and the wind
    resource as fuels; every fuel substitutes only for itself.  The fields
    the examples vary are arguments. *)

Definition Site : node := "Site"%string.
Definition Wind : tech := "Wind"%string.
Definition Battery : tech := "Battery"%string.
Definition Electricity : fuel := "Electricity"%string.
Definition WindResource : fuel := "WindResource"%string.

Definition diag_subst (F F1 : fuel) : bool := String.eqb F F1.

Definition toy_input (T : tech) (F : fuel) : bool :=
  (String.eqb T Battery && String.eqb F Electricity)
  || (String.eqb T Wind && String.eqb F WindResource).

Definition toy_output (T : tech) (F : fuel) : bool :=
  (String.eqb T Battery && String.eqb F Electricity)
  || (String.eqb T Wind && String.eqb F Electricity).

Definition toy (years days hours subhours : list Z) (fuels vre : list fuel)
  (e_input e_output : tech -> fuel -> bool)
  (unit_switch delta_y scale_y_to : Z) (rate : Q) : model :=
  {| SubHour := subhours; Hour := hours; Day := days; Year := years;
     Hour_All := hours; Day_All := days; Year_All := years;
     Tech := [Wind; Battery];
     StorageTech := [Battery];
     Node := [Site];
     Fuel := fuels;
     VreFuel := vre;
     RefFuel := [Electricity];
     Slack_switch := 1;
     Unit_cap_switch := unit_switch;
     E_input := e_input;
     E_output := e_output;
     Cap_of_input := fun _ => false;
     F_subst := diag_subst;
     Delta_Y := delta_y; Delta_D := 1; Delta_H := 1; Delta_sH := 1;
     Y_start := 1;
     Scale_Y_to := scale_y_to; Scale_D_to := 365; Scale_H_to := 24;
     F_demand := fun _ _ _ _ _ _ => 0%Q;
     F_edp := fun _ _ _ _ _ _ => 0%Q;
     V_edp := fun _ _ _ _ _ _ => 0%Q;
     Aux_ed := fun _ => 0%Q;
     Unit_cap := fun _ _ _ => 5%Q;
     Max_inst_cap := fun _ _ _ => Inf;
     Max_inst_storage_vol := fun _ _ _ => Inf;
     Start_storage_level := fun _ _ => (1 # 2)%Q;
     Window_rolling_reserve := fun _ _ _ => 0;
     F_rolling_reserve := fun _ _ _ => 1%Q;
     Eff := fun _ => (9 # 10)%Q;
     Max_f_export_timeseries := fun _ _ _ => Fin 0;
     Max_f_import_timeseries := fun _ _ _ => Fin 0;
     Max_f_import := fun _ _ => Fin 0;
     Max_f_export := fun _ _ => Fin 0;
     Max_f_injection := fun _ _ => Fin 0;
     F_fix_quant_import_size := fun _ _ => 0%Q;
     Max_f_fix_quant_import := fun _ _ => 0;
     Share_const_cons_system := fun _ => 0%Q;
     Discount_rate := rate |}.

Definition toy_fuels : list fuel := [Electricity; WindResource].

(** Two years, two days, two hours, two sub-hours; defaults elsewhere. *)
Definition toy_default : model :=
  toy [1; 2] [1; 2] [0; 1] [0; 1] toy_fuels [WindResource]
    toy_input toy_output 0 1 2 0%Q.

(** The same system with integer unit sizing switched on. *)
Definition toy_units : model :=
  toy [1; 2] [1; 2] [0; 1] [0; 1] toy_fuels [WindResource]
    toy_input toy_output 1 1 2 0%Q.

(** Years sampled every second year: [Delta_Y = 2], [Year = {1, 3}]. *)
Definition toy_biennial : model :=
  toy [1; 3] [1; 2] [0; 1] [0; 1] toy_fuels [WindResource]
    toy_input toy_output 0 2 2 0%Q.

(** Years 2 and 3 sampled while the start year is 1. *)
Definition toy_late_years : model :=
  toy [2; 3] [1; 2] [0; 1] [0; 1] toy_fuels [WindResource]
    toy_input toy_output 0 1 2 0%Q.

(** The same system with another set of declared years, rolling-reserve
    window and share, and demand. *)
Definition with_reserve (m : model) (years_all : list Z) (window : Z)
  (share : Q) (demand : node -> fuel -> Z -> Z -> Z -> Z -> Q) : model :=
  {| SubHour := SubHour m; Hour := Hour m; Day := Day m; Year := Year m;
     Hour_All := Hour_All m; Day_All := Day_All m;
     Year_All := years_all; Tech := Tech m;
     StorageTech := StorageTech m; Node := Node m; Fuel := Fuel m;
     VreFuel := VreFuel m; RefFuel := RefFuel m;
     Slack_switch := Slack_switch m;
     Unit_cap_switch := Unit_cap_switch m; E_input := E_input m;
     E_output := E_output m; Cap_of_input := Cap_of_input m;
     F_subst := F_subst m; Delta_Y := Delta_Y m; Delta_D := Delta_D m;
     Delta_H := Delta_H m; Delta_sH := Delta_sH m;
     Y_start := Y_start m; Scale_Y_to := Scale_Y_to m;
     Scale_D_to := Scale_D_to m; Scale_H_to := Scale_H_to m;
     F_demand := demand; F_edp := F_edp m; V_edp := V_edp m;
     Aux_ed := Aux_ed m; Unit_cap := Unit_cap m;
     Max_inst_cap := Max_inst_cap m;
     Max_inst_storage_vol := Max_inst_storage_vol m;
     Start_storage_level := Start_storage_level m;
     Window_rolling_reserve := fun _ _ _ => window;
     F_rolling_reserve := fun _ _ _ => share; Eff := Eff m;
     Max_f_export_timeseries := Max_f_export_timeseries m;
     Max_f_import_timeseries := Max_f_import_timeseries m;
     Max_f_import := Max_f_import m; Max_f_export := Max_f_export m;
     Max_f_injection := Max_f_injection m;
     F_fix_quant_import_size := F_fix_quant_import_size m;
     Max_f_fix_quant_import := Max_f_fix_quant_import m;
     Share_const_cons_system := Share_const_cons_system m;
     Discount_rate := Discount_rate m |}.

(** The same system with another [Cap_of_input] table. *)
Definition with_Cap_of_input (m : model) (rated : tech -> bool) : model :=
  {| SubHour := SubHour m; Hour := Hour m; Day := Day m; Year := Year m;
     Hour_All := Hour_All m; Day_All := Day_All m;
     Year_All := Year_All m; Tech := Tech m;
     StorageTech := StorageTech m; Node := Node m; Fuel := Fuel m;
     VreFuel := VreFuel m; RefFuel := RefFuel m;
     Slack_switch := Slack_switch m;
     Unit_cap_switch := Unit_cap_switch m; E_input := E_input m;
     E_output := E_output m; Cap_of_input := rated;
     F_subst := F_subst m; Delta_Y := Delta_Y m; Delta_D := Delta_D m;
     Delta_H := Delta_H m; Delta_sH := Delta_sH m;
     Y_start := Y_start m; Scale_Y_to := Scale_Y_to m;
     Scale_D_to := Scale_D_to m; Scale_H_to := Scale_H_to m;
     F_demand := F_demand m; F_edp := F_edp m; V_edp := V_edp m;
     Aux_ed := Aux_ed m; Unit_cap := Unit_cap m;
     Max_inst_cap := Max_inst_cap m;
     Max_inst_storage_vol := Max_inst_storage_vol m;
     Start_storage_level := Start_storage_level m;
     Window_rolling_reserve := Window_rolling_reserve m;
     F_rolling_reserve := F_rolling_reserve m; Eff := Eff m;
     Max_f_export_timeseries := Max_f_export_timeseries m;
     Max_f_import_timeseries := Max_f_import_timeseries m;
     Max_f_import := Max_f_import m; Max_f_export := Max_f_export m;
     Max_f_injection := Max_f_injection m;
     F_fix_quant_import_size := F_fix_quant_import_size m;
     Max_f_fix_quant_import := Max_f_fix_quant_import m;
     Share_const_cons_system := Share_const_cons_system m;
     Discount_rate := Discount_rate m |}.

(** The same system with another [Max_inst_cap] table. *)
Definition with_Max_inst_cap (m : model) (cap : node -> tech -> Z -> bound)
  : model :=
  {| SubHour := SubHour m; Hour := Hour m; Day := Day m; Year := Year m;
     Hour_All := Hour_All m; Day_All := Day_All m;
     Year_All := Year_All m; Tech := Tech m;
     StorageTech := StorageTech m; Node := Node m; Fuel := Fuel m;
     VreFuel := VreFuel m; RefFuel := RefFuel m;
     Slack_switch := Slack_switch m;
     Unit_cap_switch := Unit_cap_switch m; E_input := E_input m;
     E_output := E_output m; Cap_of_input := Cap_of_input m;
     F_subst := F_subst m; Delta_Y := Delta_Y m; Delta_D := Delta_D m;
     Delta_H := Delta_H m; Delta_sH := Delta_sH m;
     Y_start := Y_start m; Scale_Y_to := Scale_Y_to m;
     Scale_D_to := Scale_D_to m; Scale_H_to := Scale_H_to m;
     F_demand := F_demand m; F_edp := F_edp m; V_edp := V_edp m;
     Aux_ed := Aux_ed m; Unit_cap := Unit_cap m; Max_inst_cap := cap;
     Max_inst_storage_vol := Max_inst_storage_vol m;
     Start_storage_level := Start_storage_level m;
     Window_rolling_reserve := Window_rolling_reserve m;
     F_rolling_reserve := F_rolling_reserve m; Eff := Eff m;
     Max_f_export_timeseries := Max_f_export_timeseries m;
     Max_f_import_timeseries := Max_f_import_timeseries m;
     Max_f_import := Max_f_import m; Max_f_export := Max_f_export m;
     Max_f_injection := Max_f_injection m;
     F_fix_quant_import_size := F_fix_quant_import_size m;
     Max_f_fix_quant_import := Max_f_fix_quant_import m;
     Share_const_cons_system := Share_const_cons_system m;
     Discount_rate := Discount_rate m |}.

(** Hours sampled every six hours with the hour step left at 1. *)
Definition toy_six_hourly : model :=
  toy [1; 2] [1; 2] [0; 6; 12; 18] [0; 1] toy_fuels [WindResource]
    toy_input toy_output 0 1 2 0%Q.

(** ** Predicates and example data used by the properties *)

(** An assignment for [toy_units]: three units added, one retired. *)
Definition units_assignment : assignment :=
  fun v =>
    match v with
    | cap_add _ _ _ => 15%Q
    | unit_add _ _ _ => 3%Q
    | cap_sub _ _ _ => 5%Q
    | unit_sub _ _ _ => 1%Q
    | _ => 0%Q
    end.

(** Values for a system with two sampled years: 10 built in the first; 4
    built and 1 retired in the second; the battery volume goes from 6 to
    8. *)
Definition motion_assignment : assignment :=
  fun v =>
    match v with
    | cap_add _ _ Y => if Y =? 1 then 10%Q else 4%Q
    | cap_sub _ _ Y => if Y =? 1 then 0%Q else 1%Q
    | storage_vol_add _ _ Y => if Y =? 1 then 6%Q else 2%Q
    | _ => 0%Q
    end.

Definition motion_components : components :=
  fun c =>
    match c with
    | inst_cap _ _ Y => if Y =? 1 then 10%Q else 13%Q
    | inst_storage_vol _ _ Y => if Y =? 1 then 6%Q else 8%Q
    | _ => 0%Q
    end.

(** Where the look-back of a motion rule returns, the year is the start
    year or the year it looks back to is sampled. *)
Definition looks_back (m : model) (Y : Z) : Prop :=
  Y = Y_start m \/ In (Y - Delta_Y m) (Year m).

(** The largest and smallest element of a sampled set, when it has one. *)
Definition hi (s : list Z) : Z :=
  match py_max s with Ok x => x | Raise _ => 0 end.

Definition lo (s : list Z) : Z :=
  match py_min s with Ok x => x | Raise _ => 0 end.

Definition calendar_nonempty (m : model) : Prop :=
  SubHour m <> [] /\ Hour m <> [] /\ Day m <> [] /\ Year m <> [].

(** [(Y, D, H, sH)] is a sampled time stamp. *)
Definition sampled (m : model) (t : time_stamp) : Prop :=
  let '(Y, D, H, sH) := t in
  In Y (Year m) /\ In D (Day m) /\ In H (Hour m) /\ In sH (SubHour m).

(** A calendar whose sampled days are 5 and 6 while its years are 1 and 2. *)
Definition toy_offset_days : model :=
  toy [1; 2] [5; 6] [0; 1] [0; 1] toy_fuels [WindResource]
    toy_input toy_output 0 1 2 0%Q.

(** The demands the rolling reserve reads at a list of time stamps, in
    order; the first undeclared one stops it. *)
Fixpoint look_ahead (m : model) (N : node) (F : fuel)
  (stamps : list time_stamp) : result (list Q) :=
  match stamps with
  | [] => Ok []
  | t :: rest =>
      d <- F_demand_at m N F t ;;
      ds <- look_ahead m N F rest ;;
      Ok (d :: ds)
  end.

(** [toy_offset_days] with a rolling reserve of one hour, a reserve share
    of one half and a demand that equals the number of the year it is
    declared for; [toy_reserve] declares the year 5 beside the sampled
    years 1 and 2, [toy_reserve_undeclared] does not. *)
Definition toy_reserve : model :=
  with_reserve toy_offset_days [1; 2; 5] 1 (1 # 2)
    (fun _ _ Y _ _ _ => inject_Z Y).

Definition toy_reserve_undeclared : model :=
  with_reserve toy_offset_days [1; 2] 1 (1 # 2)
    (fun _ _ Y _ _ _ => inject_Z Y).

(** The level the balance at [t] starts from: the free start level when the
    previous year falls before the start year or before the first sampled
    year, the level at the previous time stamp otherwise. *)
Definition previous_level (m : model) (N : node) (StoreT : tech) (F1 : fuel)
  (pre : time_stamp) : var :=
  let '(preY, preD, preH, preSubH) := pre in
  if (preY <? Y_start m) || (preY <? lo (Year m))
  then start_storage_energy_level N StoreT F1
  else storage_energy_level N StoreT F1 preY preD preH preSubH.

(** The previous year falls before the start year or before the first
    sampled year. *)
Definition before_period (m : model) (pre : time_stamp) : Prop :=
  let '(preY, _, _, _) := pre in preY < Y_start m \/ preY < lo (Year m).

(** The previous level can be read: it is the start level, or the level at
    a sampled time stamp. *)
Definition previous_level_declared (m : model) (pre : time_stamp) : bool :=
  let '(preY, _, _, _) := pre in
  (preY <? Y_start m) || (preY <? lo (Year m)) || sampledb m pre.

(** A battery declared with two input fuels. *)
Definition two_inputs (T : tech) (F : fuel) : bool :=
  String.eqb T Battery || (String.eqb T Wind && String.eqb F WindResource).

Definition toy_two_inputs : model :=
  toy [1; 2] [1; 2] [0; 1] [0; 1] toy_fuels [WindResource]
    two_inputs toy_output 0 1 2 0%Q.

(** A battery declared with no input fuel. *)
Definition no_inputs (T : tech) (F : fuel) : bool :=
  String.eqb T Wind && String.eqb F WindResource.

Definition toy_no_inputs : model :=
  toy [1; 2] [1; 2] [0; 1] [0; 1] toy_fuels [WindResource]
    no_inputs toy_output 0 1 2 0%Q.

(** The battery without input fuel, and not allowed in any year. *)
Definition toy_no_inputs_idle : model :=
  with_Max_inst_cap toy_no_inputs (fun _ _ _ => Fin 0).

(** The policy read as a property of a model: a storage technology whose
    incidence row does not declare exactly one input fuel makes the start
    rule raise, and the balance rule raise at a declared index. *)
Definition rejects_unresolved_input (m : model) : Prop :=
  forall N StoreT,
    In N (Node m) ->
    In StoreT (StorageTech m) ->
    List.length (input_fuels m StoreT) <> 1%nat ->
    (exists e, start_storage_energy_level_constraint_rule m N StoreT = Raise e) /\
    (exists F1 Y D H sH e,
        In F1 (Fuel1 m) /\ sampled m (Y, D, H, sH) /\
        storage_energy_balance_constraint_rule m N StoreT F1 Y D H sH
        = Raise e).

Definition is_native (v : pyval) : bool :=
  match v with
  | Num _ => true
  | Expr _ => false
  end.

(** The thirteen summands of [balance], supply side first. *)
Definition balance_terms (m : model) (N : node) (F1 : fuel) (Y D H sH : Z)
  : list pyval :=
  [ f_prod_temp m N F1 Y D H sH;
    f_discharge_temp m N F1 Y D H sH;
    f_import_temp m N F1 Y D H sH;
    f_fix_quant_import_temp m N F1 Y D H sH;
    f_import_timeseries_temp m N F1 Y D H sH;
    f_slack_pos_temp m N F1 Y D H sH;
    f_slack_neg_temp m N F1 Y D H sH;
    f_cons_temp m N F1 Y D H sH;
    f_supply_cons_system_temp m N F1 Y D H sH;
    f_charge_temp m N F1 Y D H sH;
    f_delivery_temp m N F1 Y D H sH;
    f_export_temp m N F1 Y D H sH;
    f_export_timeseries_temp m N F1 Y D H sH ].

(** No summand carries a variable: every generator was empty and every
    conditional term took its [else 0] branch. *)
Definition no_variable_term (m : model) (N : node) (F1 : fuel) (Y D H sH : Z)
  : bool :=
  forallb is_native (balance_terms m N F1 Y D H sH).

(** The reading without the guard on [VreFuel]: for every settlement fuel
    the rule's answer is the three-way filter applied to [balance]. *)
Definition balance_filtered_for_every_settlement_fuel (m : model) : Prop :=
  forall N F1 Y D H sH,
    settles m F1 = true ->
    fuel_balance_constraint_rule m N F1 Y D H sH
    = balance_filter (balance m N F1 Y D H sH).

(** No division in [e] has a divisor whose value is zero. *)
Fixpoint no_zero_divisor (sigma : assignment) (rho : components) (e : expr)
  : Prop :=
  match e with
  | ENum _ | EVar _ | ERef _ => True
  | EAdd a b | ESub a b | EMul a b =>
      no_zero_divisor sigma rho a /\ no_zero_divisor sigma rho b
  | EDiv a b =>
      ~ (eval sigma rho b == 0)%Q /\
      no_zero_divisor sigma rho a /\ no_zero_divisor sigma rho b
  end.

(** A solved [toy_default]: 10 kW of wind in year 1, nothing installed in
    year 2. *)
Definition flh_components : components :=
  fun c =>
    match c with
    | inst_cap _ _ Y => if Y =? 1 then 10%Q else 0%Q
    | _ => 0%Q
    end.

(** The wind turbine rated by its input. *)
Definition toy_cap_of_input : model :=
  with_Cap_of_input toy_default (fun T => String.eqb T Wind).

(** Two models that differ at most in what [calc_disc_opex] does not read
    and in the discount rate. *)
Definition same_horizon (m1 m2 : model) : Prop :=
  Year m1 = Year m2 /\ Node m1 = Node m2 /\ Scale_Y_to m1 = Scale_Y_to m2.

(** [0 <= a] *)
Definition nonneg (ar : arithmetic) (a : num ar) : Prop :=
  leb ar (number ar 0) a = true.

(** An arithmetic whose rounding is monotone on the numbers discounting
    meets: non-negative values, rates and weights, and quotients and powers
    between 0 and 1.  These are the laws of operations rounded to the
    nearest number and of a power function that is monotone in its base;
    exact arithmetic has them. *)
Record monotone (ar : arithmetic) : Prop := {
  leb_trans : forall a b c,
    leb ar a b = true -> leb ar b c = true -> leb ar a c = true;
  number_mono : forall p q,
    (p <= q)%Q -> leb ar (number ar p) (number ar q) = true;
  add_mono : forall a a' b b',
    nonneg ar a -> nonneg ar b ->
    leb ar a a' = true -> leb ar b b' = true ->
    leb ar (add ar a b) (add ar a' b') = true;
  add_nonneg : forall a b,
    nonneg ar a -> nonneg ar b -> nonneg ar (add ar a b);
  one_plus : forall q,
    (0 <= q)%Q ->
    leb ar (number ar 1) (add ar (number ar 1) (number ar q)) = true;
  div_antitone : forall b b',
    leb ar (number ar 1) b = true -> leb ar b b' = true ->
    exists x x',
      div ar (number ar 1) b = Ok x /\ div ar (number ar 1) b' = Ok x' /\
      leb ar x' x = true /\ nonneg ar x' /\ leb ar x (number ar 1) = true;
  pow_mono : forall x x' e,
    0 <= e -> nonneg ar x -> leb ar x x' = true ->
    leb ar x' (number ar 1) = true ->
    exists y y',
      pow ar x e = Ok y /\ pow ar x' e = Ok y' /\
      leb ar y y' = true /\ nonneg ar y /\ leb ar y' (number ar 1) = true;
  mul_mono : forall c a a',
    (0 <= c)%Q -> nonneg ar a -> leb ar a a' = true ->
    leb ar a' (number ar 1) = true ->
    leb ar (mul ar (number ar c) a) (mul ar (number ar c) a') = true /\
    nonneg ar (mul ar (number ar c) a)
}.

(** [calc_disc_opex] at the rate of [m2] is no larger than its value at the
    rate of [m1]. *)
Definition discounts_no_more (ar : arithmetic) (self : OptSys)
  (m1 m2 : model) (opex : node -> tech -> Z -> num ar) (T : tech) : Prop :=
  exists v1 v2,
    calc_disc_opex ar self m1 opex T = Ok v1 /\
    calc_disc_opex ar self m2 opex T = Ok v2 /\
    leb ar v2 v1 = true.

(** Without rounding, [calc_disc_opex] at the rate of [m2] is strictly
    below its value at the rate of [m1]. *)
Definition discounts_strictly_less (self : OptSys) (m1 m2 : model)
  (opex : node -> tech -> Z -> Q) (T : tech) : Prop :=
  exists v1 v2,
    calc_disc_opex exact self m1 opex T = Ok v1 /\
    calc_disc_opex exact self m2 opex T = Ok v2 /\
    (v2 < v1)%Q.

(** Strict monotonicity for every model with a positive flat cost series. *)
Definition discount_monotone_everywhere : Prop :=
  forall self m1 m2 c T,
    same_horizon m1 m2 ->
    (0 < c)%Q ->
    (0 <= Discount_rate m1)%Q ->
    (Discount_rate m1 < Discount_rate m2)%Q ->
    discounts_strictly_less self m1 m2 (fun _ _ _ => c) T.

(** A project horizon of zero years, at rates 0 and 1. *)
Definition toy_no_horizon (rate : Q) : model :=
  toy [1; 2] [1; 2] [0; 1] [0; 1] toy_fuels [WindResource]
    toy_input toy_output 0 1 0 rate.

(** The float nearest to 0.05 and the next float above it. *)
Definition rate_below : Q := 7205759403792794 # 144115188075855872.
Definition rate_above : Q := 7205759403792795 # 144115188075855872.

(** Three sampled years scaled to a horizon of seven, at a given rate. *)
Definition toy_seven_years (rate : Q) : model :=
  toy [1; 2; 3] [1; 2] [0; 1] [0; 1] toy_fuels [WindResource]
    toy_input toy_output 0 1 7 rate.

(** ** Regular calendars and the storage cycle *)

(** A sampled set whose neighbouring elements are [d] apart: stepping by
    [d] stays in the set until it leaves it at the largest (smallest)
    element. *)
Definition evenly_spaced (s : list Z) (d : Z) : Prop :=
  0 < d /\
  forall x, In x s ->
    (x + d <= hi s -> In (x + d) s) /\
    (hi s < x + d -> x = hi s) /\
    (lo s <= x - d -> In (x - d) s) /\
    (x - d < lo s -> x = lo s).

Definition regular_calendar (m : model) : Prop :=
  evenly_spaced (SubHour m) (Delta_sH m) /\
  evenly_spaced (Hour m) (Delta_H m) /\
  evenly_spaced (Day m) (Delta_D m) /\
  evenly_spaced (Year m) (Delta_Y m).

Definition first_instant (m : model) : time_stamp :=
  (lo (Year m), lo (Day m), lo (Hour m), lo (SubHour m)).

Definition last_instant (m : model) : time_stamp :=
  (hi (Year m), hi (Day m), hi (Hour m), hi (SubHour m)).

(** The forward step, staying put where it raises. *)
Definition step_or_stay (m : model) (t : time_stamp) : time_stamp :=
  match next_time_step m t with
  | Ok t' => t'
  | Raise _ => t
  end.

(** The time stamp reached after [n] forward steps, and the [n + 1] time
    stamps visited on the way. *)
Fixpoint forward (m : model) (n : nat) (t : time_stamp) : time_stamp :=
  match n with
  | O => t
  | S k => forward m k (step_or_stay m t)
  end.

Fixpoint trail (m : model) (n : nat) (t : time_stamp) : list time_stamp :=
  match n with
  | O => [t]
  | S k => t :: trail m k (step_or_stay m t)
  end.

Definition level_at (N : node) (StoreT : tech) (F1 : fuel) (t : time_stamp)
  : var :=
  let '(Y, D, H, sH) := t in storage_energy_level N StoreT F1 Y D H sH.

Definition balance_rule_at (m : model) (N : node) (StoreT : tech) (F1 : fuel)
  (t : time_stamp) : result rule_out :=
  let '(Y, D, H, sH) := t in
  storage_energy_balance_constraint_rule m N StoreT F1 Y D H sH.

(** Energy taken in minus energy given out by the storage at [t], as the
    balance rule weighs them: [f_cons*Eff*Delta_T - f_prod/Eff*Delta_T]. *)
Definition net_charge (m : model) (sigma : assignment) (N : node)
  (StoreT : tech) (F F1 : fuel) (t : time_stamp) : Q :=
  let '(Y, D, H, sH) := t in
  (sigma (f_cons N StoreT F F1 Y D H sH) * Eff m StoreT * calc_delta_t m
   - sigma (f_prod N StoreT F1 Y D H sH) / Eff m StoreT * calc_delta_t m)%Q.

(** The rule returned without raising and the assignment respects what it
    returned. *)
Definition satisfies (sigma : assignment) (rho : components)
  (r : result rule_out) : Prop :=
  exists o, r = Ok o /\ respects sigma rho o.

(** A solved [toy_default] whose battery starts at level 4, takes in 2 kW
    in the very first half-hour step (9/10 kWh stored at efficiency 9/10)
    and gives out 81/50 kW in the very last one (9/10 kWh drawn). *)
Definition cycle_assignment : assignment :=
  fun v =>
    match v with
    | f_cons _ _ _ _ Y D H sH =>
        if (Y =? 1) && (D =? 1) && (H =? 0) && (sH =? 0) then 2%Q else 0%Q
    | f_prod _ _ _ Y D H sH =>
        if (Y =? 2) && (D =? 2) && (H =? 1) && (sH =? 1)
        then (81 # 50)%Q else 0%Q
    | storage_energy_level _ _ _ Y D H sH =>
        if (Y =? 2) && (D =? 2) && (H =? 1) && (sH =? 1)
        then 4%Q else (49 # 10)%Q
    | start_storage_energy_level _ _ _ => 4%Q
    | _ => 0%Q
    end.

(** The battery of [toy_default], allowed from year 2 on only. *)
Definition toy_late_storage : model :=
  with_Max_inst_cap toy_default
    (fun _ T Y => if String.eqb T Battery && (Y =? 1) then Fin 0 else Inf).

(** Values for [toy_late_storage]: the battery holds 5 kWh until it gives
    out 9/5 kW in the last half hour of year 2 (1 kWh drawn at efficiency
    9/10) and ends at the start level 4; it never takes anything in. *)
Definition late_assignment : assignment :=
  fun v =>
    match v with
    | f_prod _ _ _ Y D H sH =>
        if (Y =? 2) && (D =? 2) && (H =? 1) && (sH =? 1)
        then (9 # 5)%Q else 0%Q
    | storage_energy_level _ _ _ Y D H sH =>
        if (Y =? 2) && (D =? 2) && (H =? 1) && (sH =? 1)
        then 4%Q else 5%Q
    | start_storage_energy_level _ _ _ => 4%Q
    | _ => 0%Q
    end.

(** The invariant as a property of a model: for storage that is active --
    allowed in the last sampled year, as the start and end rules test it --
    every assignment that satisfies the start rule, the end rule and the
    balance at every sampled time stamp has net charges that sum to zero
    over the walk through the sampled period. *)
Definition cyclic_without_free_energy (m : model) : Prop :=
  forall N StoreT F F1 sigma rho (n : nat),
    storage_allowed m N StoreT (hi (Year m)) = true ->
    py_first (input_fuels m StoreT) = Ok F ->
    F_subst m F F1 = true ->
    settles m F1 = true ->
    satisfies sigma rho (start_storage_energy_level_constraint_rule m N StoreT) ->
    satisfies sigma rho (end_storage_energy_level_constraint_rule m N StoreT F1) ->
    (forall t, sampled m t ->
               satisfies sigma rho (balance_rule_at m N StoreT F1 t)) ->
    forward m n (first_instant m) = last_instant m ->
    (forall k, (k < n)%nat -> forward m k (first_instant m) <> last_instant m) ->
    (Qsum (map (net_charge m sigma N StoreT F F1)
             (trail m n (first_instant m)))
     == 0)%Q.

(** ** Bounds on additions, retirements and imports
       (lines 993-1008, 1033-1049, 1126-1132, 1227-1248) *)

(** Further parameters of [build_model] read by these rules. *)
Record limits : Type := {
  Min_cap_add : node -> tech -> Z -> Q;
  Max_cap_add : node -> tech -> Z -> bound;
  Min_cap_sub : node -> tech -> Z -> Q;
  Max_cap_sub : node -> tech -> Z -> bound;
  Min_storage_vol_add : node -> tech -> Z -> Q;
  Max_storage_vol_add : node -> tech -> Z -> bound;
  Min_storage_vol_sub : node -> tech -> Z -> Q;
  Max_storage_vol_sub : node -> tech -> Z -> bound;
  Min_f_import : node -> fuel -> Q;
  F_fix_quant_supply_day : node -> fuel -> Z -> bool;
  F_fix_quant_supply_hour : node -> fuel -> Z -> bool
}.

(** What a rule built on [pyo.inequality(lower, body, upper)] returns. *)
Inductive ranged_out : Type :=
| RangedSkip
| Ranged (lower : Q) (body : expr) (upper : bound).

(** [b < infinity] and [b == 0] *)
Definition bound_finite (b : bound) : bool :=
  match b with
  | Fin _ => true
  | Inf => false
  end.

Definition bound_is_zero (b : bound) : bool :=
  match b with
  | Fin q => Qeq_bool q 0
  | Inf => false
  end.

(** [lower <= v <= upper] *)
Definition in_range (lower v : Q) (upper : bound) : Prop :=
  (lower <= v)%Q /\
  match upper with
  | Fin u => (v <= u)%Q
  | Inf => True
  end.

Definition respects_ranged (sigma : assignment) (rho : components)
  (o : ranged_out) : Prop :=
  match o with
  | RangedSkip => True
  | Ranged l e u => in_range l (eval sigma rho e) u
  end.

Definition cap_add_constraint_rule (lim : limits) (N : node) (T : tech) (Y : Z)
  : ranged_out :=
  if Qltb 0 (Min_cap_add lim N T Y) || bound_finite (Max_cap_add lim N T Y)
  then Ranged (Min_cap_add lim N T Y) (EVar (cap_add N T Y))
         (Max_cap_add lim N T Y)
  else RangedSkip.

Definition cap_sub_constraint_rule (lim : limits) (N : node) (T : tech) (Y : Z)
  : ranged_out :=
  if Qltb 0 (Min_cap_sub lim N T Y) || bound_finite (Max_cap_sub lim N T Y)
  then Ranged (Min_cap_sub lim N T Y) (EVar (cap_sub N T Y))
         (Max_cap_sub lim N T Y)
  else RangedSkip.

Definition storage_vol_add_constraint_rule (lim : limits) (N : node) (T : tech)
  (Y : Z) : ranged_out :=
  if Qltb 0 (Min_storage_vol_add lim N T Y)
     || bound_finite (Max_storage_vol_add lim N T Y)
  then Ranged (Min_storage_vol_add lim N T Y) (EVar (storage_vol_add N T Y))
         (Max_storage_vol_add lim N T Y)
  else RangedSkip.

Definition storage_vol_sub_constraint_rule (lim : limits) (N : node) (T : tech)
  (Y : Z) : ranged_out :=
  if Qltb 0 (Min_storage_vol_sub lim N T Y)
     || bound_finite (Max_storage_vol_sub lim N T Y)
  then Ranged (Min_storage_vol_sub lim N T Y) (EVar (storage_vol_sub N T Y))
         (Max_storage_vol_sub lim N T Y)
  else RangedSkip.

Definition fuel_import_constraint_rule (m : model) (lim : limits) (N : node)
  (F1 : fuel) (Y D H sH : Z) : ranged_out :=
  if negb (in_set F1 (VreFuel m))
     && (Qltb 0 (Min_f_import lim N F1) || bound_finite (Max_f_import m N F1))
     && negb (bound_is_zero (Max_f_import m N F1))
  then Ranged (Min_f_import lim N F1) (EVar (f_import N F1 Y D H sH))
         (Max_f_import m N F1)
  else RangedSkip.

(** [(D-1) % 7 + 1] *)
Definition weekday (D : Z) : Z := (D - 1) mod 7 + 1.

Definition fuel_fix_quant_import_constraint_rule (m : model) (lim : limits)
  (N : node) (F1 : fuel) (Y D H sH : Z) : rule_out :=
  if Max_f_fix_quant_import m N F1 =? 0 then Skip
  else
    if F_fix_quant_supply_day lim N F1 (weekday D)
       && F_fix_quant_supply_hour lim N F1 H
       && (sH =? 0)
    then Constr (RLe (EVar (f_fix_quant_import N F1 Y D H sH))
                     (ENum (inject_Z (Max_f_fix_quant_import m N F1))))
    else Constr (REq (EVar (f_fix_quant_import N F1 Y D H sH)) (ENum 0)).

Definition fuel_delivery_constraint_rule (m : model) (N : node) (F : fuel)
  (Y D H sH : Z) : rule_out :=
  if Qltb 0 (F_demand m N F Y D H sH)
  then Constr
         (REq (to_expr
                 (py_sum (map (fun F1 => EVar (f_delivery N F F1 Y D H sH))
                            (settlement_fuels_of m F))))
              (ENum (F_demand m N F Y D H sH)))
  else Skip.

(** The delivery variables summed on the use side of the balance of [F1]
    (the generator of [f_delivery_temp]). *)
Definition delivery_terms (m : model) (N : node) (F1 : fuel) (Y D H sH : Z)
  : list expr :=
  map (fun F => EVar (f_delivery N F F1 Y D H sH))
    (filter
       (fun F => F_subst m F F1 && Qltb 0 (F_demand m N F Y D H sH)
                 && settles m F1)
       (Fuel m)).

(** Bounds for the examples: at most 20 kW added per year, imports between
    1 and 50 kW, fixed-quantity deliveries on Mondays at hour 0. *)
Definition toy_limits : limits :=
  {| Min_cap_add := fun _ _ _ => 0%Q;
     Max_cap_add := fun _ _ _ => Fin 20;
     Min_cap_sub := fun _ _ _ => 0%Q;
     Max_cap_sub := fun _ _ _ => Inf;
     Min_storage_vol_add := fun _ _ _ => 0%Q;
     Max_storage_vol_add := fun _ _ _ => Inf;
     Min_storage_vol_sub := fun _ _ _ => 0%Q;
     Max_storage_vol_sub := fun _ _ _ => Inf;
     Min_f_import := fun _ _ => 1%Q;
     F_fix_quant_supply_day := fun _ _ d => d =? 1;
     F_fix_quant_supply_hour := fun _ _ h => h =? 0 |}.

(** A one-year system with an electricity demand of 100 kW, imports of up
    to 50 kW and up to two fixed-quantity deliveries per slot; its sampled
    days 1 and 8 are both Mondays. *)
Definition toy_deliveries : model :=
  {| SubHour := [0; 1]; Hour := [0; 1]; Day := [1; 8]; Year := [1];
     Hour_All := [0; 1]; Day_All := [1; 8]; Year_All := [1];
     Tech := [Wind; Battery]; StorageTech := [Battery]; Node := [Site];
     Fuel := toy_fuels; VreFuel := [WindResource]; RefFuel := [Electricity];
     Slack_switch := 1; Unit_cap_switch := 0;
     E_input := toy_input; E_output := toy_output;
     Cap_of_input := fun _ => false; F_subst := diag_subst;
     Delta_Y := 1; Delta_D := 7; Delta_H := 1; Delta_sH := 1;
     Y_start := 1;
     Scale_Y_to := 1; Scale_D_to := 365; Scale_H_to := 24;
     F_demand := fun _ F _ _ _ _ =>
                   if String.eqb F Electricity then 100%Q else 0%Q;
     F_edp := fun _ _ _ _ _ _ => 0%Q;
     V_edp := fun _ _ _ _ _ _ => 0%Q;
     Aux_ed := fun _ => 0%Q;
     Unit_cap := fun _ _ _ => 5%Q;
     Max_inst_cap := fun _ _ _ => Inf;
     Max_inst_storage_vol := fun _ _ _ => Inf;
     Start_storage_level := fun _ _ => (1 # 2)%Q;
     Window_rolling_reserve := fun _ _ _ => 2;
     F_rolling_reserve := fun _ _ _ => 1%Q;
     Eff := fun _ => (9 # 10)%Q;
     Max_f_export_timeseries := fun _ _ _ => Fin 0;
     Max_f_import_timeseries := fun _ _ _ => Fin 0;
     Max_f_import := fun _ _ => Fin 50;
     Max_f_export := fun _ _ => Fin 0;
     Max_f_injection := fun _ _ => Fin 0;
     F_fix_quant_import_size := fun _ _ => 10%Q;
     Max_f_fix_quant_import := fun _ _ => 2;
     Share_const_cons_system := fun _ => 0%Q;
     Discount_rate := 0%Q |}.

Definition delivery_assignment : assignment :=
  fun v =>
    match v with
    | f_fix_quant_import _ _ _ D H sH =>
        if (D =? 8) && (H =? 0) && (sH =? 0) then 1%Q else 0%Q
    | f_delivery _ _ _ _ _ _ _ => 100%Q
    | f_import _ _ _ _ _ _ => 30%Q
    | _ => 0%Q
    end.

(* ================================================================== *)
(** * Properties *)
(* ================================================================== *)

(** ** Arithmetic helpers *)

Lemma Qltb_lt (a b : Q) : Qltb a b = true <-> (a < b)%Q.
Proof.
  unfold Qltb. rewrite negb_true_iff. split; intro H.
  - apply Qnot_le_lt. intro Hle. apply Qle_bool_iff in Hle. congruence.
  - destruct (Qle_bool b a) eqn:E; [|reflexivity].
    apply Qle_bool_iff in E. exfalso. exact (Qlt_not_le _ _ H E).
Qed.

Lemma Qsum_acc (l : list Q) (a : Q) :
  (fold_left Qplus l a == a + Qsum l)%Q.
Proof.
  unfold Qsum. revert a.
  induction l as [|x l IH]; intro a; simpl.
  - ring.
  - rewrite (IH (a + x)%Q), (IH (0 + x)%Q). ring.
Qed.

Lemma Qsum_cons (x : Q) (l : list Q) : (Qsum (x :: l) == x + Qsum l)%Q.
Proof. unfold Qsum at 1. simpl. rewrite Qsum_acc. ring. Qed.

Lemma Qsum_app (l1 l2 : list Q) : (Qsum (l1 ++ l2) == Qsum l1 + Qsum l2)%Q.
Proof.
  induction l1 as [|x l1 IH]; simpl.
  - unfold Qsum at 2. simpl. ring.
  - rewrite !Qsum_cons, IH. ring.
Qed.

Lemma eval_py_add sigma rho (a b : pyval) :
  (eval sigma rho (to_expr (py_add a b))
   == eval sigma rho (to_expr a) + eval sigma rho (to_expr b))%Q.
Proof. destruct a, b; simpl; reflexivity. Qed.

Lemma eval_py_fold sigma rho (l : list expr) (a : pyval) :
  (eval sigma rho (to_expr (fold_left py_add (map Expr l) a))
   == eval sigma rho (to_expr a) + Qsum (map (eval sigma rho) l))%Q.
Proof.
  revert a. induction l as [|e l IH]; intro a; simpl.
  - unfold Qsum. simpl. ring.
  - rewrite IH, eval_py_add, Qsum_cons. simpl. ring.
Qed.

(** The value of a Python [sum] of expressions is the sum of the values. *)
Lemma eval_py_sum sigma rho (l : list expr) :
  (eval sigma rho (to_expr (py_sum l)) == Qsum (map (eval sigma rho) l))%Q.
Proof. unfold py_sum. rewrite eval_py_fold. simpl. ring. Qed.

(** ** Unit sizing *)

Lemma unit_rules_on (m : model) (N : node) (T : tech) (Y : Z) :
  Unit_cap_switch m = 1 ->
  unit_add_constraint_rule m N T Y
  = Constr (REq (EVar (cap_add N T Y))
                (EMul (EVar (unit_add N T Y)) (ENum (Unit_cap m N T Y)))) /\
  unit_sub_constraint_rule m N T Y
  = Constr (REq (EVar (cap_sub N T Y))
                (EMul (EVar (unit_sub N T Y)) (ENum (Unit_cap m N T Y)))).
Proof.
  intro H. unfold unit_add_constraint_rule, unit_sub_constraint_rule.
  rewrite H. simpl. split; reflexivity.
Qed.

Lemma unit_rules_off (m : model) (N : node) (T : tech) (Y : Z) :
  Unit_cap_switch m <> 1 ->
  unit_add_constraint_rule m N T Y = Skip /\
  unit_sub_constraint_rule m N T Y = Skip.
Proof.
  intro H. unfold unit_add_constraint_rule, unit_sub_constraint_rule.
  apply Z.eqb_neq in H. rewrite H. split; reflexivity.
Qed.

(** C5. With [Unit_cap_switch = 1] both unit rules return the equalities
    [cap_add = unit_add * Unit_cap] and [cap_sub = unit_sub * Unit_cap], so
    under any assignment that respects them and gives the unit counts
    non-negative integer values, [cap_add] and [cap_sub] are integer
    multiples of [Unit_cap]; with [Unit_cap_switch = 0] both rules return
    [Constraint.Skip], i.e. no constraint at all. *)
Theorem unit_sizing_exact (m : model) (N : node) (T : tech) (Y : Z) :
  (Unit_cap_switch m = 1 ->
   unit_add_constraint_rule m N T Y
   = Constr (REq (EVar (cap_add N T Y))
                 (EMul (EVar (unit_add N T Y)) (ENum (Unit_cap m N T Y)))) /\
   unit_sub_constraint_rule m N T Y
   = Constr (REq (EVar (cap_sub N T Y))
                 (EMul (EVar (unit_sub N T Y)) (ENum (Unit_cap m N T Y)))) /\
   forall sigma rho,
     integral_units sigma ->
     respects sigma rho (unit_add_constraint_rule m N T Y) ->
     respects sigma rho (unit_sub_constraint_rule m N T Y) ->
     (exists k, 0 <= k /\
                (sigma (cap_add N T Y) == inject_Z k * Unit_cap m N T Y)%Q) /\
     (exists k, 0 <= k /\
                (sigma (cap_sub N T Y) == inject_Z k * Unit_cap m N T Y)%Q)) /\
  (Unit_cap_switch m = 0 ->
   unit_add_constraint_rule m N T Y = Skip /\
   unit_sub_constraint_rule m N T Y = Skip).
Proof.
  split.
  - intro Hon. destruct (unit_rules_on m N T Y Hon) as [Ha Hs].
    split; [exact Ha|]. split; [exact Hs|].
    intros sigma rho Hint Hra Hrs.
    rewrite Ha in Hra. rewrite Hs in Hrs. simpl in Hra, Hrs.
    destruct (Hint N T Y) as [[ka [Hka Hea]] [ks [Hks Hes]]].
    split.
    + exists ka. split; [exact Hka|]. rewrite Hra, Hea. reflexivity.
    + exists ks. split; [exact Hks|]. rewrite Hrs, Hes. reflexivity.
  - intro Hoff. apply unit_rules_off. lia.
Qed.

Lemma unit_sizing_exact_witness :
  (exists k, 0 <= k /\
     (units_assignment (cap_add Site Wind 1)
      == inject_Z k * Unit_cap toy_units Site Wind 1)%Q) /\
  unit_add_constraint_rule toy_default Site Wind 1 = Skip.
Proof.
  split.
  - refine (proj1 (proj2 (proj2
             (proj1 (unit_sizing_exact toy_units Site Wind 1) eq_refl))
             units_assignment (fun _ => 0%Q) _ _ _)).
    + intros N T Y. split.
      * exists 3. split; [lia | reflexivity].
      * exists 1. split; [lia | reflexivity].
    + simpl. reflexivity.
    + simpl. reflexivity.
  - exact (proj1 (proj2 (unit_sizing_exact toy_default Site Wind 1) eq_refl)).
Defined.

(** ** Sampled calendar bounds *)

Lemma py_max_hi (s : list Z) : s <> [] -> py_max s = Ok (hi s).
Proof. destruct s; [congruence | reflexivity]. Qed.

Lemma py_min_lo (s : list Z) : s <> [] -> py_min s = Ok (lo s).
Proof. destruct s; [congruence | reflexivity]. Qed.

Lemma fold_max_spec (l : list Z) (a : Z) :
  (fold_left Z.max l a = a \/ In (fold_left Z.max l a) l) /\
  a <= fold_left Z.max l a /\
  (forall y, In y l -> y <= fold_left Z.max l a).
Proof.
  revert a. induction l as [|x l IH]; intro a; simpl.
  - repeat split; [auto | lia | tauto].
  - destruct (IH (Z.max a x)) as [Hin [Hle Hall]].
    repeat split.
    + destruct Hin as [Heq | Hin]; [|auto].
      rewrite Heq. destruct (Z.max_spec a x) as [[_ ->] | [_ ->]]; auto.
    + lia.
    + intros y [<- | Hy]; [lia | auto].
Qed.

Lemma fold_min_spec (l : list Z) (a : Z) :
  (fold_left Z.min l a = a \/ In (fold_left Z.min l a) l) /\
  fold_left Z.min l a <= a /\
  (forall y, In y l -> fold_left Z.min l a <= y).
Proof.
  revert a. induction l as [|x l IH]; intro a; simpl.
  - repeat split; [auto | lia | tauto].
  - destruct (IH (Z.min a x)) as [Hin [Hle Hall]].
    repeat split.
    + destruct Hin as [Heq | Hin]; [|auto].
      rewrite Heq. destruct (Z.min_spec a x) as [[_ ->] | [_ ->]]; auto.
    + lia.
    + intros y [<- | Hy]; [lia | auto].
Qed.

(** [hi s] is an element of a non-empty [s] and bounds it from above. *)
Lemma hi_spec (s : list Z) :
  s <> [] -> In (hi s) s /\ forall y, In y s -> y <= hi s.
Proof.
  destruct s as [|x xs]; [congruence|]. intros _. unfold hi. simpl.
  destruct (fold_max_spec xs x) as [Hin [Hle Hall]]. split.
  - destruct Hin as [-> | Hin]; auto.
  - intros y [<- | Hy]; auto.
Qed.

Lemma lo_spec (s : list Z) :
  s <> [] -> In (lo s) s /\ forall y, In y s -> lo s <= y.
Proof.
  destruct s as [|x xs]; [congruence|]. intros _. unfold lo. simpl.
  destruct (fold_min_spec xs x) as [Hin [Hle Hall]]. split.
  - destruct Hin as [-> | Hin]; auto.
  - intros y [<- | Hy]; auto.
Qed.

Lemma py_len_pos {A : Type} (l : list A) : l <> [] -> 0 < py_len l.
Proof. destruct l; [congruence|]. intros _. unfold py_len. simpl. lia. Qed.

Lemma sampled_bounds (s : list Z) (x : Z) :
  In x s -> s <> [] /\ In (lo s) s /\ In (hi s) s /\ lo s <= x <= hi s.
Proof.
  intro Hx.
  assert (Hne : s <> []) by (intro E; rewrite E in Hx; contradiction).
  destruct (lo_spec s Hne) as [Hlo Hlo'].
  destruct (hi_spec s Hne) as [Hhi Hhi'].
  repeat split; auto.
Qed.

Lemma sampled_calendar_nonempty (m : model) (t : time_stamp) :
  sampled m t -> calendar_nonempty m.
Proof.
  destruct t as [[[Y D] H] sH]. intros (HY & HD & HH & HsH).
  repeat split; intro E;
    [rewrite E in HsH | rewrite E in HH | rewrite E in HD | rewrite E in HY];
    contradiction.
Qed.

(** ** Capacity and storage-volume motion *)

Lemma mem_In (x : Z) (s : list Z) : mem x s = true <-> In x s.
Proof.
  unfold mem. rewrite existsb_exists. split.
  - intros [y [Hy E]]. apply Z.eqb_eq in E. subst y. exact Hy.
  - intro H. exists x. split; [exact H | apply Z.eqb_refl].
Qed.

Lemma cap_motion_looks_back (m : model) (N : node) (T : tech) (Y : Z) (e : expr) :
  cap_motion_rule m N T Y = Ok e -> looks_back m Y.
Proof.
  unfold cap_motion_rule, looks_back. intro H.
  destruct (Y =? Y_start m) eqn:E; [left; apply Z.eqb_eq; exact E|].
  destruct (mem (Y - Delta_Y m) (Year m)) eqn:M; [|discriminate H].
  right. apply mem_In. exact M.
Qed.

Lemma storage_vol_motion_looks_back (m : model) (N : node) (T : tech) (Y : Z)
  (e : expr) :
  storage_vol_motion_rule m N T Y = Ok e -> looks_back m Y.
Proof.
  unfold storage_vol_motion_rule, looks_back. intro H.
  destruct (Y =? Y_start m) eqn:E; [left; apply Z.eqb_eq; exact E|].
  destruct (mem (Y - Delta_Y m) (Year m)) eqn:M; [|discriminate H].
  right. apply mem_In. exact M.
Qed.

(** When every sampled year looks back successfully, the sampled years are
    the start year and whole steps of [Delta_Y] after it. *)
Lemma years_on_the_grid (m : model) :
  0 < Delta_Y m ->
  (forall Y, In Y (Year m) -> looks_back m Y) ->
  forall Y, In Y (Year m) ->
    exists k, 0 <= k /\ Y = Y_start m + k * Delta_Y m.
Proof.
  intros Hd Hall.
  assert (Hlow : forall Y, In Y (Year m) -> Y_start m <= Y).
  { assert (Hdesc : forall (n : nat) Y, In Y (Year m) ->
              Y < Y_start m -> In (Y - Z.of_nat n * Delta_Y m) (Year m)).
    { induction n as [|n IH]; intros Y HY Hlt.
      - replace (Y - Z.of_nat 0 * Delta_Y m) with Y by (simpl; lia). exact HY.
      - specialize (IH Y HY Hlt).
        destruct (Hall _ IH) as [E | Hin]; [nia|].
        replace (Y - Z.of_nat (S n) * Delta_Y m)
          with (Y - Z.of_nat n * Delta_Y m - Delta_Y m) by nia.
        exact Hin. }
    intros Y HY. destruct (Z_lt_le_dec Y (Y_start m)) as [Hlt|Hle]; [|exact Hle].
    exfalso.
    assert (Hne : Year m <> []) by (intro E; rewrite E in HY; exact HY).
    destruct (lo_spec (Year m) Hne) as [_ Hmin].
    pose proof (Hdesc (Z.to_nat (Y - lo (Year m) + 1)) Y HY Hlt) as Hin.
    specialize (Hmin _ Hin). specialize (Hmin). 
    pose proof (proj2 (lo_spec (Year m) Hne) Y HY) as HloY.
    rewrite Z2Nat.id in Hmin by lia. nia. }
  assert (Hgrid : forall (n : nat) Y, In Y (Year m) ->
            Y - Y_start m <= Z.of_nat n ->
            exists k, 0 <= k /\ Y = Y_start m + k * Delta_Y m).
  { induction n as [|n IH]; intros Y HY Hn.
    - exists 0. pose proof (Hlow Y HY). split; lia.
    - destruct (Hall Y HY) as [E | Hin].
      + exists 0. split; lia.
      + destruct (IH _ Hin ltac:(lia)) as [k [Hk Ek]].
        exists (k + 1). split; [lia | nia]. }
  intros Y HY. apply (Hgrid (Z.to_nat (Y - Y_start m)) Y HY).
  pose proof (Hlow Y HY). lia.
Qed.



Lemma biennial_motion_values :
  motion_values toy_biennial motion_assignment motion_components.
Proof.
  split; intros N T Y _ _ HY; simpl in HY;
    destruct HY as [<- | [<- | []]]; eexists; (split; [reflexivity|]);
    reflexivity.
Qed.


(** ** The forward step of the rolling reserve *)

Ltac step_calendar m :=
  repeat match goal with
         | H : calendar_nonempty m |- _ =>
             destruct H as (HsH0 & HH0 & HD0 & HY0)
         end;
  try rewrite (py_max_hi (SubHour m)) by assumption;
  try rewrite (py_min_lo (SubHour m)) by assumption;
  try rewrite (py_max_hi (Hour m)) by assumption;
  try rewrite (py_min_lo (Hour m)) by assumption;
  try rewrite (py_max_hi (Day m)) by assumption;
  try rewrite (py_min_lo (Day m)) by assumption;
  try rewrite (py_max_hi (Year m)) by assumption;
  try rewrite (py_min_lo (Year m)) by assumption.

Lemma ltb_false_le (a b : Z) : b <= a -> (a <? b) = false.
Proof. intro. apply Z.ltb_ge. assumption. Qed.

Lemma ltb_true_lt (a b : Z) : a < b -> (a <? b) = true.
Proof. intro. apply Z.ltb_lt. assumption. Qed.

Lemma next_time_step_cases (m : model) (Y D H sH : Z) :
  calendar_nonempty m ->
  (sH + Delta_sH m <= hi (SubHour m) ->
   next_time_step m (Y, D, H, sH) = Ok (Y, D, H, sH + Delta_sH m)) /\
  (hi (SubHour m) < sH + Delta_sH m ->
   H + Delta_H m <= hi (Hour m) ->
   next_time_step m (Y, D, H, sH) = Ok (Y, D, H + Delta_H m, lo (SubHour m))) /\
  (hi (SubHour m) < sH + Delta_sH m ->
   hi (Hour m) < H + Delta_H m ->
   D + Delta_D m <= hi (Day m) ->
   next_time_step m (Y, D, H, sH)
   = Ok (Y, D + Delta_D m, lo (Hour m), lo (SubHour m))) /\
  (hi (SubHour m) < sH + Delta_sH m ->
   hi (Hour m) < H + Delta_H m ->
   hi (Day m) < D + Delta_D m ->
   Y + Delta_Y m <= hi (Year m) ->
   next_time_step m (Y, D, H, sH)
   = Ok (Y + Delta_Y m, lo (Day m), lo (Hour m), lo (SubHour m))) /\
  (hi (SubHour m) < sH + Delta_sH m ->
   hi (Hour m) < H + Delta_H m ->
   hi (Day m) < D + Delta_D m ->
   hi (Year m) < Y + Delta_Y m ->
   next_time_step m (Y, D, H, sH)
   = Ok (lo (Day m), lo (Day m), lo (Hour m), lo (SubHour m))).
Proof.
  intro Hne. unfold next_time_step. step_calendar m. simpl.
  repeat split; intros;
    repeat first
      [ rewrite ltb_false_le by assumption
      | rewrite ltb_true_lt by assumption
      | progress simpl ];
    reflexivity.
Qed.

(** The forward step never fails on a non-empty calendar. *)
Lemma next_time_step_total (m : model) (t : time_stamp) :
  calendar_nonempty m -> exists t', next_time_step m t = Ok t'.
Proof.
  destruct t as [[[Y D] H] sH]. intro Hne.
  unfold next_time_step. step_calendar m. simpl.
  repeat match goal with
         | |- context [if ?b then _ else _] => destruct b; simpl
         end; eexists; reflexivity.
Qed.

Lemma step_or_stay_next (m : model) (t t' : time_stamp) :
  next_time_step m t = Ok t' -> step_or_stay m t = t'.
Proof. intro H. unfold step_or_stay. rewrite H. reflexivity. Qed.

Lemma trail_head (m : model) (n : nat) (t : time_stamp) :
  trail m n t = t :: tl (trail m n t).
Proof. destruct n; reflexivity. Qed.

(** The loop of the rolling reserve reads the demand at the time stamps
    that follow [t] on the forward walk, in order, and adds them up from
    the left. *)
Lemma rolling_walk_spec (ar : arithmetic) (m : model) (N : node) (F : fuel) :
  calendar_nonempty m ->
  forall (n : nat) (t : time_stamp) (acc : num ar),
    rolling_walk ar m N F n t acc
    = (ds <- look_ahead m N F (tl (trail m n t)) ;;
       Ok (forward m n t,
           fold_left (add ar) (map (number ar) ds) acc)).
Proof.
  intro Hne. induction n as [|n IH]; intros t acc.
  - reflexivity.
  - cbn [rolling_walk forward trail tl].
    destruct (next_time_step_total m t Hne) as [t' Ht'].
    rewrite Ht', (step_or_stay_next m t t' Ht'). cbn [bind].
    rewrite (trail_head m n t'). cbn [look_ahead].
    destruct (F_demand_at m N F t') as [d|e]; cbn [bind]; [|reflexivity].
    rewrite IH.
    destruct (look_ahead m N F (tl (trail m n t'))) as [ds|e]; reflexivity.
Qed.

Lemma forward_S (m : model) (n : nat) (t : time_stamp) :
  forward m (S n) t = step_or_stay m (forward m n t).
Proof.
  revert t. induction n as [|n IH]; intro t; [reflexivity|].
  change (forward m (S (S n)) t) with (forward m (S n) (step_or_stay m t)).
  rewrite IH. reflexivity.
Qed.

Lemma trail_nth (m : model) (n k : nat) (t : time_stamp) :
  (k <= n)%nat -> nth_error (trail m n t) k = Some (forward m k t).
Proof.
  revert k t. induction n as [|n IH]; intros k t Hk.
  - assert (k = 0%nat) by lia. subst k. reflexivity.
  - destruct k as [|k]; [reflexivity|].
    cbn [trail nth_error forward]. apply IH. lia.
Qed.

(** C6. With a positive window and reserve share the rolling reserve reads
    the demand at the time stamps of the forward walk from its own time
    stamp -- one [next_time_step] after the other -- adds them up and
    returns the sum times the share times [Delta_T]; a time stamp the
    demand is not declared for stops it with [KeyError].  In each step the
    sub-hour advances by [Delta_sH]; past the largest sampled sub-hour it
    restarts at the smallest and the hour advances; past the largest
    sampled hour the day advances; past the largest sampled day the year
    advances; and when the advanced year exceeds the largest sampled year
    the year coordinate is assigned the smallest sampled *day* -- neither
    the advanced year nor the first sampled year. *)
Theorem rolling_forward_wrap (ar : arithmetic) (m : model) (N : node)
  (StoreT : tech) (F : fuel) (t : time_stamp) :
  calendar_nonempty m ->
  0 < Window_rolling_reserve m N StoreT F ->
  (0 < F_rolling_reserve m N StoreT F)%Q ->
  let n := Z.to_nat (Window_rolling_reserve m N StoreT F * py_len (SubHour m)) in
  (* the rule is the walk *)
  (let '(Y, D, H, sH) := t in
   storage_energy_level_rolling_reserve_rule ar m N StoreT F Y D H sH)
  = (ds <- look_ahead m N F (tl (trail m n t)) ;;
     Ok (TimesDeltaT
           (mul ar
              (fold_left (add ar) (map (number ar) ds) (number ar 0))
              (number ar (F_rolling_reserve m N StoreT F))))) /\
  (forall k, (k < n)%nat ->
     nth_error (tl (trail m n t)) k = Some (forward m (S k) t) /\
     next_time_step m (forward m k t) = Ok (forward m (S k) t)) /\
  (* the step *)
  (forall Y D H sH,
     (sH + Delta_sH m <= hi (SubHour m) ->
      next_time_step m (Y, D, H, sH) = Ok (Y, D, H, sH + Delta_sH m)) /\
     (hi (SubHour m) < sH + Delta_sH m ->
      H + Delta_H m <= hi (Hour m) ->
      next_time_step m (Y, D, H, sH)
      = Ok (Y, D, H + Delta_H m, lo (SubHour m))) /\
     (hi (SubHour m) < sH + Delta_sH m ->
      hi (Hour m) < H + Delta_H m ->
      D + Delta_D m <= hi (Day m) ->
      next_time_step m (Y, D, H, sH)
      = Ok (Y, D + Delta_D m, lo (Hour m), lo (SubHour m))) /\
     (hi (SubHour m) < sH + Delta_sH m ->
      hi (Hour m) < H + Delta_H m ->
      hi (Day m) < D + Delta_D m ->
      Y + Delta_Y m <= hi (Year m) ->
      next_time_step m (Y, D, H, sH)
      = Ok (Y + Delta_Y m, lo (Day m), lo (Hour m), lo (SubHour m))) /\
     (hi (SubHour m) < sH + Delta_sH m ->
      hi (Hour m) < H + Delta_H m ->
      hi (Day m) < D + Delta_D m ->
      hi (Year m) < Y + Delta_Y m ->
      next_time_step m (Y, D, H, sH)
      = Ok (lo (Day m), lo (Day m), lo (Hour m), lo (SubHour m)))).
Proof.
  intros Hne Hw Hs n. split; [|split].
  - destruct t as [[[Y D] H] sH].
    unfold storage_energy_level_rolling_reserve_rule.
    rewrite (ltb_true_lt _ _ Hw), (proj2 (Qltb_lt _ _) Hs). cbn [andb].
    fold n. rewrite (rolling_walk_spec ar m N F Hne).
    destruct (look_ahead m N F (tl (trail m n (Y, D, H, sH)))) as [ds|e];
      reflexivity.
  - intros k Hk. split.
    + pose proof (trail_nth m n (S k) t ltac:(lia)) as Hnth.
      rewrite (trail_head m n t) in Hnth. exact Hnth.
    + destruct (next_time_step_total m (forward m k t) Hne) as [t' Ht'].
      rewrite forward_S, (step_or_stay_next _ _ _ Ht'). exact Ht'.
  - intros Y D H sH. exact (next_time_step_cases m Y D H sH Hne).
Qed.

(** From the last sampled instant (year 2, day 6, hour 1, sub-hour 1) the
    walk of [toy_reserve] lands on "year" 5, the smallest sampled day, and
    reads the demand declared for the year 5 in both half hours of its
    window: (5 + 5) * 1/2. *)
Lemma rolling_forward_wrap_witness :
  storage_energy_level_rolling_reserve_rule exact toy_reserve Site Battery
    Electricity 2 6 1 1
  = Ok (TimesDeltaT ((0 + 5 + 5) * (1 # 2))%Q) /\
  next_time_step toy_reserve (2, 6, 1, 1) = Ok (5, 5, 0, 0).
Proof.
  destruct (rolling_forward_wrap exact toy_reserve Site Battery Electricity
              (2, 6, 1, 1))
    as (Hrule & Hwalk & _).
  - repeat split; discriminate.
  - reflexivity.
  - reflexivity.
  - split; [rewrite Hrule; reflexivity|].
    exact (proj2 (Hwalk 0%nat ltac:(vm_compute; lia))).
Defined.

(** ** The backward step of the storage balance *)

Lemma previous_time_stamp_cases (m : model) (Y D H sH : Z) :
  calendar_nonempty m ->
  (lo (SubHour m) <= sH - Delta_sH m ->
   previous_time_stamp m (Y, D, H, sH) = Ok (Y, D, H, sH - Delta_sH m)) /\
  (sH - Delta_sH m < lo (SubHour m) ->
   lo (Hour m) <= H - Delta_H m ->
   previous_time_stamp m (Y, D, H, sH)
   = Ok (Y, D, H - Delta_H m, hi (SubHour m))) /\
  (sH - Delta_sH m < lo (SubHour m) ->
   H - Delta_H m < lo (Hour m) ->
   lo (Day m) <= D - Delta_D m ->
   previous_time_stamp m (Y, D, H, sH)
   = Ok (Y, D - Delta_D m, hi (Hour m), hi (SubHour m))) /\
  (sH - Delta_sH m < lo (SubHour m) ->
   H - Delta_H m < lo (Hour m) ->
   D - Delta_D m < lo (Day m) ->
   previous_time_stamp m (Y, D, H, sH)
   = Ok (Y - Delta_Y m, hi (Day m), hi (Hour m), hi (SubHour m))).
Proof.
  intro Hne. unfold previous_time_stamp. step_calendar m. simpl.
  repeat split; intros;
    repeat first
      [ rewrite ltb_false_le by assumption
      | rewrite ltb_true_lt by assumption
      | progress simpl ];
    reflexivity.
Qed.

(** The backward step never fails on a non-empty calendar. *)
Lemma previous_time_stamp_total (m : model) (t : time_stamp) :
  calendar_nonempty m -> exists p, previous_time_stamp m t = Ok p.
Proof.
  destruct t as [[[Y D] H] sH]. intro Hne.
  unfold previous_time_stamp. step_calendar m. simpl.
  repeat match goal with
         | |- context [if ?b then _ else _] => destruct b; simpl
         end; eexists; reflexivity.
Qed.

Lemma before_first_step_spec (m : model) (preY : Z) :
  Year m <> [] ->
  before_first_step m preY
  = Ok ((preY <? Y_start m) || (preY <? lo (Year m))).
Proof.
  intro Hne. unfold before_first_step. rewrite (py_min_lo _ Hne).
  destruct (preY <? Y_start m); reflexivity.
Qed.

Lemma sampledb_sampled (m : model) (t : time_stamp) :
  sampledb m t = true <-> sampled m t.
Proof.
  destruct t as [[[Y D] H] sH]. unfold sampledb, sampled.
  rewrite !andb_true_iff, !mem_In. tauto.
Qed.

Lemma previous_level_declared_spec (m : model) (pre : time_stamp) :
  previous_level_declared m pre = true <-> before_period m pre \/ sampled m pre.
Proof.
  rewrite <- sampledb_sampled.
  destruct pre as [[[preY preD] preH] preSubH].
  unfold previous_level_declared, before_period.
  rewrite !orb_true_iff, !Z.ltb_lt. tauto.
Qed.

(** On a regular calendar the time stamp before a sampled one is sampled,
    unless it falls before the first sampled year. *)
Lemma regular_previous_declared (m : model) (t pre : time_stamp) :
  regular_calendar m ->
  sampled m t ->
  previous_time_stamp m t = Ok pre ->
  previous_level_declared m pre = true.
Proof.
  intros (Gs & Gh & Gd & Gy) Hs Hpre.
  pose proof (sampled_calendar_nonempty m t Hs) as Hne.
  apply previous_level_declared_spec.
  destruct t as [[[Y D] H] sH]. destruct Hs as (HY & HD & HH & HsH).
  destruct Gs as [Ps Gs], Gh as [Ph Gh], Gd as [Pd Gd], Gy as [Py Gy].
  destruct (sampled_bounds _ _ HsH) as (_ & Ls & Us & Bs).
  destruct (sampled_bounds _ _ HH) as (_ & Lh & Uh & Bh).
  destruct (sampled_bounds _ _ HD) as (_ & Ld & Ud & Bd).
  destruct (Gs sH HsH) as (_ & _ & Gs3 & _).
  destruct (Gh H HH) as (_ & _ & Gh3 & _).
  destruct (Gd D HD) as (_ & _ & Gd3 & _).
  destruct (Gy Y HY) as (_ & _ & Gy3 & _).
  destruct (previous_time_stamp_cases m Y D H sH Hne) as (P1 & P2 & P3 & P4).
  destruct (Z_le_gt_dec (lo (SubHour m)) (sH - Delta_sH m)) as [As | As].
  { rewrite (P1 As) in Hpre. inversion Hpre; subst pre.
    right. simpl. auto. }
  destruct (Z_le_gt_dec (lo (Hour m)) (H - Delta_H m)) as [Ah | Ah].
  { rewrite P2 in Hpre by lia. inversion Hpre; subst pre.
    right. simpl. auto. }
  destruct (Z_le_gt_dec (lo (Day m)) (D - Delta_D m)) as [Ad | Ad].
  { rewrite P3 in Hpre by lia. inversion Hpre; subst pre.
    right. simpl. auto. }
  rewrite P4 in Hpre by lia. inversion Hpre; subst pre.
  destruct (Z_le_gt_dec (lo (Year m)) (Y - Delta_Y m)) as [Ay | Ay].
  - right. simpl. auto.
  - left. simpl. right. lia.
Qed.

(** The balance rule once the input fuel is resolved to [F]. *)
Lemma balance_rule_resolved (m : model) (N : node) (StoreT : tech)
  (F F1 : fuel) (Y D H sH : Z) (pre : time_stamp) :
  calendar_nonempty m ->
  storage_allowed m N StoreT Y = true ->
  settles m F1 = true ->
  py_first (input_fuels m StoreT) = Ok F ->
  F_subst m F F1 = true ->
  ~ (Eff m StoreT == 0)%Q ->
  previous_time_stamp m (Y, D, H, sH) = Ok pre ->
  storage_energy_balance_constraint_rule m N StoreT F1 Y D H sH
  = if previous_level_declared m pre
    then Ok (Constr
               (REq (EVar (storage_energy_level N StoreT F1 Y D H sH))
                    (ESub
                       (EAdd (EVar (previous_level m N StoreT F1 pre))
                          (EMul (EMul (EVar (f_cons N StoreT F F1 Y D H sH))
                                   (ENum (Eff m StoreT)))
                             (ENum (calc_delta_t m))))
                       (EMul (EDiv (EVar (f_prod N StoreT F1 Y D H sH))
                                (ENum (Eff m StoreT)))
                          (ENum (calc_delta_t m))))))
    else Raise KeyError.
Proof.
  intros Hne Hallowed Hsettles HF Hsub Heff Hpre.
  unfold storage_energy_balance_constraint_rule.
  rewrite Hallowed, Hsettles, HF. cbn [andb bind]. rewrite Hsub. cbn [negb].
  destruct (Qeq_bool (Eff m StoreT) 0) eqn:E.
  - apply Qeq_bool_iff in E. contradiction.
  - rewrite Hpre. cbn [bind]. destruct pre as [[[preY preD] preH] preSubH].
    rewrite before_first_step_spec
      by (destruct Hne as (_ & _ & _ & HY0); exact HY0).
    cbn [bind]. unfold previous_level, previous_level_declared.
    destruct ((preY <? Y_start m) || (preY <? lo (Year m)));
      cbn [orb bind]; [reflexivity|].
    destruct (sampledb m (preY, preD, preH, preSubH)); reflexivity.
Qed.

(** C2 (amended). For an active (node, storage technology, settlement
    fuel) and a sampled time stamp, the previous time stamp is obtained by
    decrementing the sub-hour and wrapping into hour, day and year at the
    bounds of the sampled sets.  Where its level can be read -- always on a
    regular calendar -- the storage balance rule returns the equality
    [level[t] == preLevel + f_cons[t]*Eff*Delta_T - f_prod[t]/Eff*Delta_T],
    and [preLevel] is the free start level exactly when the previous year
    is below [Y_start] or below the smallest sampled year; where the
    previous time stamp is neither before the period nor sampled the rule
    raises [KeyError]. *)
Theorem storage_balance_recurrence (m : model) (N : node) (StoreT : tech)
  (F F1 : fuel) (Y D H sH : Z) :
  sampled m (Y, D, H, sH) ->
  storage_allowed m N StoreT Y = true ->
  settles m F1 = true ->
  py_first (input_fuels m StoreT) = Ok F ->
  F_subst m F F1 = true ->
  ~ (Eff m StoreT == 0)%Q ->
  exists pre,
    previous_time_stamp m (Y, D, H, sH) = Ok pre /\
    (* the wrap *)
    (lo (SubHour m) <= sH - Delta_sH m -> pre = (Y, D, H, sH - Delta_sH m)) /\
    (sH - Delta_sH m < lo (SubHour m) -> lo (Hour m) <= H - Delta_H m ->
     pre = (Y, D, H - Delta_H m, hi (SubHour m))) /\
    (sH - Delta_sH m < lo (SubHour m) -> H - Delta_H m < lo (Hour m) ->
     lo (Day m) <= D - Delta_D m ->
     pre = (Y, D - Delta_D m, hi (Hour m), hi (SubHour m))) /\
    (sH - Delta_sH m < lo (SubHour m) -> H - Delta_H m < lo (Hour m) ->
     D - Delta_D m < lo (Day m) ->
     pre = (Y - Delta_Y m, hi (Day m), hi (Hour m), hi (SubHour m))) /\
    (* the constraint, where the previous level can be read *)
    (before_period m pre \/ sampled m pre ->
     storage_energy_balance_constraint_rule m N StoreT F1 Y D H sH
     = Ok (Constr
             (REq (EVar (storage_energy_level N StoreT F1 Y D H sH))
                  (ESub
                     (EAdd (EVar (previous_level m N StoreT F1 pre))
                        (EMul (EMul (EVar (f_cons N StoreT F F1 Y D H sH))
                                 (ENum (Eff m StoreT)))
                           (ENum (calc_delta_t m))))
                     (EMul (EDiv (EVar (f_prod N StoreT F1 Y D H sH))
                              (ENum (Eff m StoreT)))
                        (ENum (calc_delta_t m))))))) /\
    (* no level variable at an unsampled previous time stamp *)
    (~ before_period m pre -> ~ sampled m pre ->
     storage_energy_balance_constraint_rule m N StoreT F1 Y D H sH
     = Raise KeyError) /\
    (* a regular calendar never gets there *)
    (regular_calendar m -> before_period m pre \/ sampled m pre) /\
    (* what the constraint means for an assignment *)
    (forall sigma rho o,
       storage_energy_balance_constraint_rule m N StoreT F1 Y D H sH = Ok o ->
       respects sigma rho o ->
       (sigma (storage_energy_level N StoreT F1 Y D H sH)
        == sigma (previous_level m N StoreT F1 pre)
           + sigma (f_cons N StoreT F F1 Y D H sH) * Eff m StoreT
             * calc_delta_t m
           - sigma (f_prod N StoreT F1 Y D H sH) / Eff m StoreT
             * calc_delta_t m)%Q).
Proof.
  intros Hs Hallowed Hsettles HF Hsub Heff.
  pose proof (sampled_calendar_nonempty m _ Hs) as Hne.
  destruct (previous_time_stamp_total m (Y, D, H, sH) Hne) as [pre Hpre].
  destruct (previous_time_stamp_cases m Y D H sH Hne) as (C1 & C2 & C3 & C4).
  pose proof (balance_rule_resolved m N StoreT F F1 Y D H sH pre
                Hne Hallowed Hsettles HF Hsub Heff Hpre) as Hrule.
  pose proof (previous_level_declared_spec m pre) as Hdecl.
  exists pre. split; [exact Hpre|].
  split; [intro A; rewrite (C1 A) in Hpre; congruence|].
  split; [intros A B; rewrite (C2 A B) in Hpre; congruence|].
  split; [intros A B C; rewrite (C3 A B C) in Hpre; congruence|].
  split; [intros A B C; rewrite (C4 A B C) in Hpre; congruence|].
  split; [|split; [|split]].
  - intro Hd. apply Hdecl in Hd. rewrite Hd in Hrule. exact Hrule.
  - intros Hnb Hns.
    destruct (previous_level_declared m pre) eqn:E; [|exact Hrule].
    destruct (proj1 Hdecl eq_refl); contradiction.
  - intro Hreg. apply Hdecl.
    exact (regular_previous_declared m (Y, D, H, sH) pre Hreg Hs Hpre).
  - intros sigma rho o Ho Hresp. rewrite Hrule in Ho.
    destruct (previous_level_declared m pre); [|discriminate Ho].
    inversion Ho; subst o. simpl in Hresp. exact Hresp.
Qed.

(** At the first sampled instant of [toy_default] the step wraps through
    sub-hour, hour and day into year 0, which lies before [Y_start = 1]:
    the balance starts from the free start level. *)
Lemma storage_balance_recurrence_witness :
  exists pre,
    previous_time_stamp toy_default (1, 1, 0, 0) = Ok pre /\
    pre = (0, 2, 1, 1) /\
    previous_level toy_default Site Battery Electricity pre
    = start_storage_energy_level Site Battery Electricity /\
    storage_energy_balance_constraint_rule toy_default Site Battery
      Electricity 1 1 0 0
    = Ok (Constr
            (REq (EVar (storage_energy_level Site Battery Electricity 1 1 0 0))
                 (ESub
                    (EAdd (EVar (previous_level toy_default Site Battery
                                   Electricity pre))
                       (EMul (EMul (EVar (f_cons Site Battery Electricity
                                            Electricity 1 1 0 0))
                                (ENum (Eff toy_default Battery)))
                          (ENum (calc_delta_t toy_default))))
                    (EMul (EDiv (EVar (f_prod Site Battery Electricity 1 1 0 0))
                             (ENum (Eff toy_default Battery)))
                       (ENum (calc_delta_t toy_default)))))).
Proof.
  destruct (storage_balance_recurrence toy_default Site Battery
              Electricity Electricity 1 1 0 0)
    as (pre & Hpre & _ & _ & _ & Hwrap & Hrule & _).
  - simpl. auto.
  - reflexivity.
  - reflexivity.
  - reflexivity.
  - reflexivity.
  - intro H. discriminate H.
  - exists pre. split; [exact Hpre|].
    assert (E : pre = (0, 2, 1, 1)).
    { apply Hwrap; vm_compute; reflexivity. }
    split; [exact E|]. split; [rewrite E; reflexivity|].
    apply Hrule. left. rewrite E. simpl. left. lia.
Defined.

(** Hours sampled every six hours while [Delta_H] is 1: at the sampled
    time stamp (1, 1, 6, 0) of an active battery the previous time stamp is
    hour 5, which is not sampled and carries no level variable; the rule
    returns no equality but raises [KeyError]. *)
Lemma balance_key_error :
  sampled toy_six_hourly (1, 1, 6, 0) /\
  storage_allowed toy_six_hourly Site Battery 1 = true /\
  settles toy_six_hourly Electricity = true /\
  previous_time_stamp toy_six_hourly (1, 1, 6, 0) = Ok (1, 1, 5, 1) /\
  ~ sampled toy_six_hourly (1, 1, 5, 1) /\
  storage_energy_balance_constraint_rule toy_six_hourly Site Battery
    Electricity 1 1 6 0
  = Raise KeyError.
Proof.
  split; [simpl; auto 10|]. split; [reflexivity|]. split; [reflexivity|].
  split; [reflexivity|]. split; [|reflexivity].
  intros (_ & _ & HH & _). simpl in HH.
  destruct HH as [E | [E | [E | [E | []]]]]; discriminate E.
Qed.

(** ** Cyclic consistency of the storage level *)

Lemma settlement_fuels_of_In (m : model) (F F1 : fuel) :
  In F1 (settlement_fuels_of m F)
  <-> In F1 (Fuel1 m) /\ F_subst m F F1 = true /\ settles m F1 = true.
Proof.
  unfold settlement_fuels_of. rewrite filter_In, andb_true_iff. tauto.
Qed.

(** The end rule once the input fuel is resolved to [F]. *)
Lemma end_rule_resolved (m : model) (N : node) (StoreT : tech) (F F1 : fuel) :
  calendar_nonempty m ->
  py_first (input_fuels m StoreT) = Ok F ->
  end_storage_energy_level_constraint_rule m N StoreT F1
  = if storage_allowed m N StoreT (hi (Year m)) && F_subst m F F1
       && settles m F1
    then Ok (Constr
               (REq (EVar (storage_energy_level N StoreT F1 (hi (Year m))
                             (hi (Day m)) (hi (Hour m)) (hi (SubHour m))))
                    (EVar (start_storage_energy_level N StoreT F1))))
    else Ok Skip.
Proof.
  intros Hne HF. unfold end_storage_energy_level_constraint_rule.
  rewrite HF. cbn [bind]. step_calendar m. cbn [bind].
  destruct (storage_allowed m N StoreT (hi (Year m)) && F_subst m F F1
            && settles m F1); reflexivity.
Qed.

(** The start rule, up to the resolution of the input fuel. *)
Lemma start_rule_resolved (m : model) (N : node) (StoreT : tech) :
  calendar_nonempty m ->
  start_storage_energy_level_constraint_rule m N StoreT
  = if storage_allowed m N StoreT (hi (Year m))
    then
      F <- py_first (input_fuels m StoreT) ;;
      Ok (Constr
            (REq (to_expr
                    (py_sum
                       (map (fun F1' =>
                               EVar (start_storage_energy_level N StoreT F1'))
                          (settlement_fuels_of m F))))
                 (EMul (ENum (Start_storage_level m N StoreT))
                       (ERef (inst_storage_vol N StoreT (lo (Year m)))))))
    else Ok Skip.
Proof.
  intros Hne. unfold start_storage_energy_level_constraint_rule.
  step_calendar m. cbn [bind].
  destruct (storage_allowed m N StoreT (hi (Year m))); [|reflexivity].
  destruct (py_first (input_fuels m StoreT)); cbn [bind]; [|reflexivity].
  step_calendar m. reflexivity.
Qed.

(** ** Resolving the input fuel of a storage technology *)

(** Neither half of the policy holds.  With two declared input fuels
    nothing is raised: the start rule returns a constraint built on the
    first of them.  With no declared input fuel and storage not allowed,
    nothing is raised either: the start rule and the balance rule skip
    before they resolve the fuel.  And where a rule does stop on a missing
    input fuel, what it raises is the [IndexError] of the subscript [[0]]
    on an empty list. *)
Lemma unresolved_input_not_rejected :
  (input_fuels toy_two_inputs Battery = [Electricity; WindResource] /\
   ~ rejects_unresolved_input toy_two_inputs) /\
  (input_fuels toy_no_inputs_idle Battery = [] /\
   start_storage_energy_level_constraint_rule toy_no_inputs_idle Site Battery
   = Ok Skip /\
   ~ rejects_unresolved_input toy_no_inputs_idle) /\
  (input_fuels toy_no_inputs Battery = [] /\
   start_storage_energy_level_constraint_rule toy_no_inputs Site Battery
   = Raise IndexError).
Proof.
  split; [split; [reflexivity|]
         | split; [split; [reflexivity | split; [reflexivity|]]
                  | split; reflexivity]].
  - intro H.
    destruct (H Site Battery) as [[e He] _].
    + simpl. auto.
    + simpl. auto.
    + vm_compute. discriminate.
    + vm_compute in He. discriminate He.
  - intro H.
    destruct (H Site Battery) as [[e He] _].
    + simpl. auto.
    + simpl. auto.
    + vm_compute. discriminate.
    + vm_compute in He. discriminate He.
Qed.

(** C9 (amended). A storage technology with no declared input fuel makes
    the rules raise [IndexError], the error of the failed subscript [[0]],
    where they resolve the fuel: the end rule always, the start rule when
    storage is allowed in the last sampled year, the balance rule when
    storage is allowed in its year and the fuel settles; elsewhere they
    skip.  A storage technology with more than one declared input fuel
    raises nothing on that account: every rule takes the first declared
    input fuel, in the order of [Fuel]. *)
Theorem input_fuel_resolution (m : model) (N : node) (StoreT : tech) :
  calendar_nonempty m ->
  (input_fuels m StoreT = [] ->
   (forall F1,
       end_storage_energy_level_constraint_rule m N StoreT F1
       = Raise IndexError) /\
   start_storage_energy_level_constraint_rule m N StoreT
   = (if storage_allowed m N StoreT (hi (Year m))
      then Raise IndexError else Ok Skip) /\
   (forall F1 Y D H sH,
       storage_energy_balance_constraint_rule m N StoreT F1 Y D H sH
       = if storage_allowed m N StoreT Y && settles m F1
         then Raise IndexError else Ok Skip)) /\
  (forall F F' rest,
      input_fuels m StoreT = F :: F' :: rest ->
      (forall F1,
          end_storage_energy_level_constraint_rule m N StoreT F1
          = if storage_allowed m N StoreT (hi (Year m)) && F_subst m F F1
               && settles m F1
            then Ok (Constr
                       (REq (EVar (storage_energy_level N StoreT F1
                                     (hi (Year m)) (hi (Day m)) (hi (Hour m))
                                     (hi (SubHour m))))
                            (EVar (start_storage_energy_level N StoreT F1))))
            else Ok Skip) /\
      start_storage_energy_level_constraint_rule m N StoreT
      = (if storage_allowed m N StoreT (hi (Year m))
         then Ok (Constr
                    (REq (to_expr
                            (py_sum
                               (map (fun F1' =>
                                       EVar (start_storage_energy_level
                                               N StoreT F1'))
                                  (filter
                                     (fun F1' =>
                                        F_subst m F F1'
                                        && (F_subst_rowsum m F1' =? 1))
                                     (Fuel m)))))
                         (EMul (ENum (Start_storage_level m N StoreT))
                               (ERef (inst_storage_vol N StoreT
                                        (lo (Year m)))))))
         else Ok Skip) /\
      (forall F1 Y D H sH,
          storage_allowed m N StoreT Y = true ->
          settles m F1 = true ->
          F_subst m F F1 = true ->
          ~ (Eff m StoreT == 0)%Q ->
          exists pre,
            previous_time_stamp m (Y, D, H, sH) = Ok pre /\
            storage_energy_balance_constraint_rule m N StoreT F1 Y D H sH
            = if previous_level_declared m pre
              then
                Ok (Constr
                      (REq (EVar (storage_energy_level N StoreT F1 Y D H sH))
                           (ESub
                              (EAdd (EVar (previous_level m N StoreT F1 pre))
                                 (EMul
                                    (EMul (EVar (f_cons N StoreT F F1 Y D H sH))
                                       (ENum (Eff m StoreT)))
                                    (ENum (calc_delta_t m))))
                              (EMul
                                 (EDiv (EVar (f_prod N StoreT F1 Y D H sH))
                                    (ENum (Eff m StoreT)))
                                 (ENum (calc_delta_t m))))))
              else Raise KeyError)).
Proof.
  intro Hne. split.
  - intro Hnone. split; [|split].
    + intro F1. unfold end_storage_energy_level_constraint_rule.
      rewrite Hnone. reflexivity.
    + rewrite (start_rule_resolved m N StoreT Hne), Hnone.
      destruct (storage_allowed m N StoreT (hi (Year m))); reflexivity.
    + intros F1 Y D H sH. unfold storage_energy_balance_constraint_rule.
      rewrite Hnone.
      destruct (storage_allowed m N StoreT Y && settles m F1); reflexivity.
  - intros F F' rest Hmany.
    assert (HF : py_first (input_fuels m StoreT) = Ok F)
      by (rewrite Hmany; reflexivity).
    split; [|split].
    + intro F1. exact (end_rule_resolved m N StoreT F F1 Hne HF).
    + rewrite (start_rule_resolved m N StoreT Hne), HF.
      destruct (storage_allowed m N StoreT (hi (Year m))); reflexivity.
    + intros F1 Y D H sH Hallowed Hsettles Hsub Heff.
      destruct (previous_time_stamp_total m (Y, D, H, sH) Hne) as [pre Hpre].
      exists pre. split; [exact Hpre|].
      exact (balance_rule_resolved m N StoreT F F1 Y D H sH pre
               Hne Hallowed Hsettles HF Hsub Heff Hpre).
Qed.

(** Both halves on concrete systems: the battery without input fuel stops
    the start rule with [IndexError]; the battery with two input fuels gets
    a start constraint over the settlement fuels of the first one. *)
Lemma input_fuel_resolution_witness :
  start_storage_energy_level_constraint_rule toy_no_inputs Site Battery
  = Raise IndexError /\
  start_storage_energy_level_constraint_rule toy_two_inputs Site Battery
  = Ok (Constr
          (REq (EAdd (ENum 0)
                  (EVar (start_storage_energy_level Site Battery Electricity)))
               (EMul (ENum (1 # 2)) (ERef (inst_storage_vol Site Battery 1))))).
Proof.
  split.
  - refine (proj1 (proj2 (proj1
              (input_fuel_resolution toy_no_inputs Site Battery _) eq_refl))).
    repeat split; discriminate.
  - refine (proj1 (proj2 (proj2
              (input_fuel_resolution toy_two_inputs Site Battery _)
              Electricity WindResource [] eq_refl))).
    repeat split; discriminate.
Defined.

(** ** Fuel balance: constraint, skip, or [None] *)

Lemma py_fold_expr (l : list expr) (e : expr) :
  is_native (fold_left py_add (map Expr l) (Expr e)) = false.
Proof.
  revert e. induction l as [|x l IH]; intro e; simpl; [reflexivity|].
  apply IH.
Qed.

(** A Python [sum] is the int 0 on an empty generator and an expression on
    any other. *)
Lemma py_sum_native (l : list expr) :
  (l = [] -> py_sum l = Num 0) /\
  (l <> [] -> is_native (py_sum l) = false).
Proof.
  split.
  - intros ->. reflexivity.
  - destruct l as [|x l]; [congruence|]. intros _.
    unfold py_sum. simpl. apply py_fold_expr.
Qed.

Lemma py_sum_native_zero (l : list expr) :
  is_native (py_sum l) = true -> py_sum l = Num 0.
Proof.
  destruct l as [|x l]; [reflexivity|].
  intro H. rewrite (proj2 (py_sum_native (x :: l))) in H; discriminate.
Qed.

Lemma py_if_native_zero (c : bool) (e : expr) :
  is_native (py_if c e) = true -> py_if c e = Num 0.
Proof. destruct c; simpl; [discriminate | reflexivity]. Qed.

Lemma py_add_native (a b : pyval) :
  is_native (py_add a b) = is_native a && is_native b.
Proof. destruct a, b; reflexivity. Qed.

Lemma py_eq_expr (a b : pyval) :
  is_native a && is_native b = false ->
  py_eq a b = PyRel (REq (to_expr a) (to_expr b)).
Proof. destruct a, b; simpl; try reflexivity. discriminate. Qed.

Lemma balance_sides_native (m : model) (N : node) (F1 : fuel) (Y D H sH : Z) :
  is_native (balance_supply m N F1 Y D H sH)
  && is_native (balance_use m N F1 Y D H sH)
  = no_variable_term m N F1 Y D H sH.
Proof.
  unfold balance_supply, balance_use, no_variable_term, balance_terms.
  rewrite !py_add_native. cbn [forallb]. rewrite andb_true_r, !andb_assoc.
  reflexivity.
Qed.

(** When no summand carries a variable, both sides are the number 0. *)
Lemma balance_sides_zero (m : model) (N : node) (F1 : fuel) (Y D H sH : Z) :
  no_variable_term m N F1 Y D H sH = true ->
  balance_supply m N F1 Y D H sH = Num 0 /\
  balance_use m N F1 Y D H sH = Num 0.
Proof.
  unfold no_variable_term, balance_terms. cbn [forallb].
  rewrite !andb_true_iff.
  intros (H1 & H2 & H3 & H4 & H5 & H6 & H7 & H8 & H9 & H10 & H11 & H12
          & H13 & _).
  unfold balance_supply, balance_use.
  rewrite (py_sum_native_zero _ H1 : f_prod_temp m N F1 Y D H sH = _),
    (py_sum_native_zero _ H2 : f_discharge_temp m N F1 Y D H sH = _),
    (py_if_native_zero _ _ H3 : f_import_temp m N F1 Y D H sH = _),
    (py_if_native_zero _ _ H4 : f_fix_quant_import_temp m N F1 Y D H sH = _),
    (py_if_native_zero _ _ H5 : f_import_timeseries_temp m N F1 Y D H sH = _),
    (py_if_native_zero _ _ H6 : f_slack_pos_temp m N F1 Y D H sH = _),
    (py_if_native_zero _ _ H7 : f_slack_neg_temp m N F1 Y D H sH = _),
    (py_sum_native_zero _ H8 : f_cons_temp m N F1 Y D H sH = _),
    (py_sum_native_zero _ H9 : f_supply_cons_system_temp m N F1 Y D H sH = _),
    (py_sum_native_zero _ H10 : f_charge_temp m N F1 Y D H sH = _),
    (py_sum_native_zero _ H11 : f_delivery_temp m N F1 Y D H sH = _),
    (py_sum_native_zero _ H12 : f_export_temp m N F1 Y D H sH = _),
    (py_sum_native_zero _ H13 : f_export_timeseries_temp m N F1 Y D H sH = _).
  split; reflexivity.
Qed.

(** In [toy_default] the wind resource settles and is a VRE fuel; the wind
    turbine consumes it, so [balance] is a relational expression -- and the
    rule skips all the same. *)
Lemma vre_fuel_skipped_with_terms :
  settles toy_default WindResource = true /\
  no_variable_term toy_default Site WindResource 1 1 0 0 = false /\
  fuel_balance_constraint_rule toy_default Site WindResource 1 1 0 0 = Skip /\
  ~ balance_filtered_for_every_settlement_fuel toy_default.
Proof.
  split; [reflexivity|]. split; [reflexivity|]. split; [reflexivity|].
  intro H. specialize (H Site WindResource 1 1 0 0 eq_refl).
  vm_compute in H. discriminate H.
Qed.

(** C4 (amended). For a settlement fuel that is not a VRE fuel the rule is
    the three-way filter on [balance]: it returns the equality of the two
    sides when some summand carries a variable; it skips exactly when none
    does, both sides then being the number 0 and [balance] the tautology
    [0 == 0]; and on two unequal numbers the filter answers [None], never
    [Constraint.Skip]. *)
Theorem fuel_balance_three_way (m : model) (N : node) (F1 : fuel)
  (Y D H sH : Z) :
  settles m F1 = true ->
  in_set F1 (VreFuel m) = false ->
  fuel_balance_constraint_rule m N F1 Y D H sH
  = balance_filter (balance m N F1 Y D H sH) /\
  (no_variable_term m N F1 Y D H sH = false ->
   fuel_balance_constraint_rule m N F1 Y D H sH
   = Constr (REq (to_expr (balance_supply m N F1 Y D H sH))
                 (to_expr (balance_use m N F1 Y D H sH))) /\
   forall sigma rho,
     respects sigma rho (fuel_balance_constraint_rule m N F1 Y D H sH) ->
     (eval sigma rho (to_expr (balance_supply m N F1 Y D H sH))
      == eval sigma rho (to_expr (balance_use m N F1 Y D H sH)))%Q) /\
  (fuel_balance_constraint_rule m N F1 Y D H sH = Skip
   <-> no_variable_term m N F1 Y D H sH = true) /\
  (no_variable_term m N F1 Y D H sH = true ->
   balance m N F1 Y D H sH = PyBool true) /\
  (forall a b : Q, ~ (a == b)%Q ->
                   balance_filter (py_eq (Num a) (Num b)) = RuleNone).
Proof.
  intros Hsettles Hvre.
  assert (Hrule :
    fuel_balance_constraint_rule m N F1 Y D H sH
    = balance_filter (balance m N F1 Y D H sH)).
  { unfold fuel_balance_constraint_rule, balance_settled.
    rewrite Hsettles, Hvre. reflexivity. }
  assert (Hvar :
    no_variable_term m N F1 Y D H sH = false ->
    fuel_balance_constraint_rule m N F1 Y D H sH
    = Constr (REq (to_expr (balance_supply m N F1 Y D H sH))
                  (to_expr (balance_use m N F1 Y D H sH)))).
  { intro Hterm. rewrite Hrule. unfold balance.
    rewrite py_eq_expr by (rewrite balance_sides_native; exact Hterm).
    reflexivity. }
  assert (Hzero :
    no_variable_term m N F1 Y D H sH = true ->
    balance m N F1 Y D H sH = PyBool true).
  { intro Hterm. unfold balance.
    destruct (balance_sides_zero m N F1 Y D H sH Hterm) as [-> ->].
    reflexivity. }
  split; [exact Hrule|]. split; [|split; [|split]].
  - intro Hterm. split; [exact (Hvar Hterm)|].
    intros sigma rho Hresp. rewrite (Hvar Hterm) in Hresp. exact Hresp.
  - split.
    + intro Hskip.
      destruct (no_variable_term m N F1 Y D H sH) eqn:E; [reflexivity|].
      rewrite (Hvar eq_refl) in Hskip. discriminate Hskip.
    + intro Hterm. rewrite Hrule, (Hzero Hterm). reflexivity.
  - exact Hzero.
  - intros a b Hab. simpl.
    destruct (Qeq_bool a b) eqn:E; [|reflexivity].
    apply Qeq_bool_iff in E. contradiction.
Qed.

(** Electricity in [toy_default] settles and is no VRE fuel; the wind
    turbine produces it, so the rule returns the balance equality. *)
Lemma fuel_balance_three_way_witness :
  fuel_balance_constraint_rule toy_default Site Electricity 1 1 0 0
  = Constr (REq (to_expr (balance_supply toy_default Site Electricity 1 1 0 0))
                (to_expr (balance_use toy_default Site Electricity 1 1 0 0))).
Proof.
  refine (proj1 (proj1 (proj2
            (fuel_balance_three_way toy_default Site Electricity 1 1 0 0 _ _))
            _)).
  - reflexivity.
  - reflexivity.
  - reflexivity.
Defined.

(** A fuel that is not a settlement fuel, or that is a VRE fuel, is skipped
    whatever the summands are. *)
Lemma fuel_balance_guard (m : model) (N : node) (F1 : fuel) (Y D H sH : Z) :
  settles m F1 = false \/ in_set F1 (VreFuel m) = true ->
  fuel_balance_constraint_rule m N F1 Y D H sH = Skip.
Proof.
  unfold fuel_balance_constraint_rule, balance_settled.
  intros [-> | ->]; [reflexivity|].
  rewrite andb_false_r. reflexivity.
Qed.

(** The rule never answers [None]: two native sides are both 0. *)
Lemma fuel_balance_never_none (m : model) (N : node) (F1 : fuel)
  (Y D H sH : Z) :
  fuel_balance_constraint_rule m N F1 Y D H sH <> RuleNone.
Proof.
  unfold fuel_balance_constraint_rule.
  destruct (balance_settled m F1); [|discriminate].
  destruct (no_variable_term m N F1 Y D H sH) eqn:E.
  - unfold balance.
    destruct (balance_sides_zero m N F1 Y D H sH E) as [-> ->].
    discriminate.
  - unfold balance. rewrite py_eq_expr
      by (rewrite balance_sides_native; exact E).
    discriminate.
Qed.

(** ** Full-load hours *)

Lemma no_zero_divisor_fold (sigma : assignment) (rho : components)
  (l : list expr) (a : pyval) :
  no_zero_divisor sigma rho (to_expr a) ->
  Forall (no_zero_divisor sigma rho) l ->
  no_zero_divisor sigma rho (to_expr (fold_left py_add (map Expr l) a)).
Proof.
  revert a. induction l as [|x l IH]; intros a Ha Hl; [exact Ha|].
  inversion Hl as [|? ? Hx Hl']; subst. cbn [map fold_left].
  apply IH; [|exact Hl'].
  destruct a as [q|e]; cbn [py_add to_expr no_zero_divisor]; auto.
Qed.

Lemma no_zero_divisor_sum (sigma : assignment) (rho : components)
  (l : list expr) :
  (forall e, In e l -> exists v, e = EVar v) ->
  no_zero_divisor sigma rho (to_expr (py_sum l)).
Proof.
  intro Hl. unfold py_sum. apply no_zero_divisor_fold; [exact I|].
  apply Forall_forall. intros e He. destruct (Hl e He) as [v ->]. exact I.
Qed.




Lemma py_div_ok (a b : Q) : ~ (b == 0)%Q -> py_div a b = Ok (a / b)%Q.
Proof.
  intro Hb. unfold py_div. destruct (Qeq_bool b 0) eqn:E; [|reflexivity].
  apply Qeq_bool_iff in E. contradiction.
Qed.

(** ** The LCOE loop *)

Section LcoeLoopFacts.

Variable self : OptSys.
Variable m : model.
Variable mean_at : Z -> node -> fuel -> Z -> Q.

Lemma loop_test_false (i : Z) (s : lcoe_state) :
  loop_test self i s = false ->
  max_iter <= i \/
  (min_inter <= i /\ bound_gt (delta_lcoe s) (zero_threshold self) = false).
Proof.
  unfold loop_test. rewrite andb_false_iff, orb_false_iff.
  intros [[Hd Hi] | Hi].
  - right. split; [apply Z.ltb_ge; exact Hi | exact Hd].
  - left. apply Z.ltb_ge. exact Hi.
Qed.

Lemma loop_test_true (i : Z) (s : lcoe_state) :
  loop_test self i s = true -> i < max_iter.
Proof.
  unfold loop_test. rewrite andb_true_iff. intros [_ Hi].
  apply Z.ltb_lt. exact Hi.
Qed.

(** With a budget that covers the distance to [max_iter] the loop exits by
    its own test. *)
Lemma lcoe_while_exits (budget : nat) (i : Z) (s : lcoe_state) :
  Z.max 0 (max_iter - i) < Z.of_nat budget ->
  exists i' s',
    lcoe_while self m mean_at budget i s = Some (i', s') /\
    i <= i' /\
    loop_test self i' s' = false /\
    (i' <= max_iter \/ i' = i).
Proof.
  revert i s. induction budget as [|b IH]; intros i s Hb.
  - simpl in Hb. lia.
  - cbn [lcoe_while]. destruct (loop_test self i s) eqn:E.
    + pose proof (loop_test_true _ _ E) as Hlt.
      destruct (IH (i + 1) (loop_body m mean_at i s))
        as (i' & s' & H1 & H2 & H3 & H4); [lia|].
      exists i', s'. repeat split; [exact H1 | lia | exact H3 | lia].
    + exists i, s. repeat split; [lia | exact E | right; reflexivity].
Qed.

(** The loop of [calc_LCOEnergy] terminates; its body runs at least
    [min_inter - 1 = 3] and at most [max_iter - 1 = 19] times; and it stops
    either at [i = max_iter] or with [delta_lcoe] no larger than the
    threshold. *)
Lemma calc_LCOEnergy_loop_bounds :
  exists i s,
    calc_LCOEnergy_loop self m mean_at 20 = Some (i, s) /\
    3 <= iterations_run (i, s) <= 19 /\
    (i = max_iter \/
     bound_gt (delta_lcoe s) (zero_threshold self) = false).
Proof.
  unfold calc_LCOEnergy_loop.
  destruct (lcoe_while_exits 20 1 (initial_state m)) as (i & s & H1 & H2 & H3 & H4).
  - unfold max_iter. simpl. lia.
  - exists i, s. split; [exact H1|].
    apply loop_test_false in H3. unfold iterations_run, max_iter, min_inter in *.
    simpl. split; [lia|].
    destruct H3 as [H3 | [_ H3]]; [left; lia | right; exact H3].
Qed.

End LcoeLoopFacts.

(** C7. On [toy_default] with every mean cost equal to zero the tracker
    reports [delta_lcoe = 0] from the first pass on, and the loop stops at
    [i = 4]: its body has run three times, one short of [min_inter = 4]. *)
Theorem lcoe_loop_three_iterations :
  exists s,
    calc_LCOEnergy_loop default_OptSys toy_default (fun _ _ _ _ => 0%Q) 20
    = Some (4, s) /\
    iterations_run (4, s) = 3 /\
    delta_lcoe s = Fin 0.
Proof.
  eexists. split; [|split].
  - vm_compute. reflexivity.
  - reflexivity.
  - reflexivity.
Qed.

(** Without convergence the body runs 19 times, one short of
    [max_iter = 20]. *)
Lemma lcoe_loop_nineteen_iterations :
  exists s,
    calc_LCOEnergy_loop default_OptSys toy_default
      (fun i _ _ _ => inject_Z i) 20
    = Some (20, s) /\
    iterations_run (20, s) = 19.
Proof.
  eexists. split.
  - vm_compute. reflexivity.
  - reflexivity.
Qed.

(** ** Discounting *)

Lemma py_range_In (n i : Z) : In i (py_range n) <-> 0 <= i < n.
Proof.
  unfold py_range. rewrite in_map_iff. split.
  - intros (k & <- & Hk). apply in_seq in Hk. lia.
  - intros Hi. exists (Z.to_nat i). split; [lia|].
    apply in_seq. lia.
Qed.

Lemma Forall2_map_same {A B C : Type} (R : B -> C -> Prop) (f : A -> B)
  (g : A -> C) (l : list A) :
  (forall a, In a l -> R (f a) (g a)) -> Forall2 R (map f l) (map g l).
Proof.
  induction l as [|a l IH]; intro H; simpl; constructor.
  - apply H. left. reflexivity.
  - apply IH. intros b Hb. apply H. right. exact Hb.
Qed.

Lemma Forall2_flat_map_same {A B C : Type} (R : B -> C -> Prop)
  (f : A -> list B) (g : A -> list C) (l : list A) :
  (forall a, In a l -> Forall2 R (f a) (g a)) ->
  Forall2 R (flat_map f l) (flat_map g l).
Proof.
  induction l as [|a l IH]; intro H; simpl; [constructor|].
  apply Forall2_app.
  - apply H. left. reflexivity.
  - apply IH. intros b Hb. apply H. right. exact Hb.
Qed.

(** A list that is pointwise strictly below another sums to no more, and to
    strictly less when it is not empty. *)
Lemma Qsum_Forall2_lt (l1 l2 : list Q) :
  Forall2 Qlt l1 l2 ->
  (Qsum l1 <= Qsum l2)%Q /\ (l1 <> [] -> (Qsum l1 < Qsum l2)%Q).
Proof.
  induction 1 as [|x y l1 l2 Hxy Hrest [IHle IHlt]].
  - split; [apply Qle_refl | congruence].
  - rewrite !Qsum_cons. split; [lra | intros _; lra].
Qed.

(** Powers with a positive integer exponent are strictly increasing in a
    positive base. *)
Lemma Qpower_lt_base (a b : Q) (e : Z) :
  (0 < a)%Q -> (a < b)%Q -> 1 <= e -> (a ^ e < b ^ e)%Q.
Proof.
  intros Ha Hab He.
  replace e with (Z.of_nat (S (Z.to_nat (e - 1)))) by lia.
  induction (Z.to_nat (e - 1)) as [|n IH].
  - simpl. exact Hab.
  - replace (Z.of_nat (S (S n))) with (Z.of_nat (S n) + 1) by lia.
    rewrite !Qpower_plus' by lia.
    assert (Hpa : (0 < a ^ Z.of_nat (S n))%Q) by (apply Qpower_0_lt; exact Ha).
    change (a ^ 1)%Q with a. change (b ^ 1)%Q with b.
    nra.
Qed.

(** Powers with a non-negative integer exponent are monotone in a
    non-negative base and stay within [0, 1] there. *)
Lemma Qpower_le_base (a b : Q) (e : Z) :
  (0 <= a)%Q -> (a <= b)%Q -> (b <= 1)%Q -> 0 <= e ->
  (0 <= a ^ e)%Q /\ (a ^ e <= b ^ e)%Q /\ (b ^ e <= 1)%Q.
Proof.
  intros Ha Hab Hb He.
  replace e with (Z.of_nat (Z.to_nat e)) by lia.
  induction (Z.to_nat e) as [|n (I1 & I2 & I3)].
  - simpl. repeat split; lra.
  - replace (Z.of_nat (S n)) with (Z.of_nat n + 1) by lia.
    rewrite !Qpower_plus' by lia.
    change (a ^ 1)%Q with a. change (b ^ 1)%Q with b.
    repeat split; nra.
Qed.

Lemma r_frac_lt (r1 r2 : Q) :
  (0 <= r1)%Q -> (r1 < r2)%Q ->
  (0 < 1 / (1 + r2))%Q /\ (1 / (1 + r2) < 1 / (1 + r1))%Q.
Proof.
  intros H1 H12.
  assert (P1 : (0 < 1 + r1)%Q) by lra.
  assert (P2 : (0 < 1 + r2)%Q) by lra.
  unfold Qdiv. rewrite !Qmult_1_l. split.
  - apply Qinv_lt_0_compat. exact P2.
  - apply -> Qinv_lt_contravar; [lra | exact P2 | exact P1].
Qed.

Lemma flat_map_nonempty {A B : Type} (f : A -> list B) (l : list A) (a : A) :
  In a l -> f a <> [] -> flat_map f l <> [].
Proof.
  intros Ha Hf E.
  destruct (f a) as [|b bs] eqn:Efa; [congruence|].
  assert (Hb : In b (flat_map f l)).
  { apply in_flat_map. exists a. split; [exact Ha|]. rewrite Efa. left. reflexivity. }
  rewrite E in Hb. contradiction.
Qed.

Lemma map_nonempty {A B : Type} (f : A -> B) (l : list A) :
  l <> [] -> map f l <> [].
Proof. destruct l; [congruence | discriminate]. Qed.

Lemma nonempty_has_element {A : Type} (l : list A) :
  l <> [] -> exists a, In a l.
Proof. destruct l as [|a l]; [congruence|]. intros _. exists a. left. reflexivity. Qed.

(** *** Exact arithmetic *)

Lemma exact_leb (a b : Q) : leb exact a b = true <-> (a <= b)%Q.
Proof. apply Qle_bool_iff. Qed.

Lemma exact_monotone : monotone exact.
Proof.
  constructor; unfold nonneg; cbn [num number add mul div pow exact].
  - intros a b c. rewrite !exact_leb. apply Qle_trans.
  - intros p q. rewrite exact_leb. auto.
  - intros a a' b b'. rewrite !exact_leb. intros. lra.
  - intros a b. rewrite !exact_leb. intros. lra.
  - intros q. rewrite exact_leb. intros. lra.
  - intros b b'. rewrite !exact_leb. intros H1 Hbb'.
    rewrite !py_div_ok by (intro E; lra).
    eexists. eexists. split; [reflexivity|]. split; [reflexivity|].
    rewrite !exact_leb.
    assert (P : (0 < b)%Q) by lra. assert (P' : (0 < b')%Q) by lra.
    unfold Qdiv. rewrite !Qmult_1_l.
    pose proof (Qinv_lt_0_compat _ P) as I. pose proof (Qinv_lt_0_compat _ P') as I'.
    repeat split.
    + destruct (Qlt_le_dec b b') as [Hlt | Hge].
      * apply Qlt_le_weak. apply -> Qinv_lt_contravar; assumption.
      * assert (E : (b == b')%Q) by lra. rewrite E. apply Qle_refl.
    + lra.
    + assert (E : (b * / b == 1)%Q) by (apply Qmult_inv_r; lra).
      nra.
  - intros x x' e He. rewrite !exact_leb. intros Hx Hxx' Hx'.
    replace (e <? 0) with false by (symmetry; apply Z.ltb_ge; lia).
    rewrite !andb_false_r.
    eexists. eexists. split; [reflexivity|]. split; [reflexivity|].
    rewrite !exact_leb.
    destruct (Qpower_le_base x x' e Hx Hxx' Hx' He) as (P1 & P2 & P3).
    repeat split; assumption.
  - intros c a a' Hc. rewrite !exact_leb. intros Ha Haa' Ha'. split; nra.
Qed.

Lemma sum_from_exact (ts : list (result Q)) (qs : list Q) (total : Q) :
  Forall2 (fun t q => t = Ok q) ts qs ->
  sum_from exact total ts = Ok (fold_left Qplus qs total).
Proof.
  intro H. revert total.
  induction H as [|t q ts qs Ht _ IH]; intro total; [reflexivity|].
  cbn [sum_from fold_left]. rewrite Ht. cbn [bind]. apply IH.
Qed.

Lemma discounted_exact (v r : Q) (e : Z) :
  ~ (r == 0)%Q -> discounted exact v r e = Ok (v * r ^ e)%Q.
Proof.
  intro Hr. unfold discounted. cbn [pow exact].
  destruct (Qeq_bool r 0) eqn:E.
  - apply Qeq_bool_iff in E. contradiction.
  - reflexivity.
Qed.

(** Without rounding [calc_disc_opex] is the weighted sum over the sampled
    years plus the tail over the missing years. *)
Lemma calc_disc_opex_exact (self : OptSys) (m : model)
  (opex : node -> tech -> Z -> Q) (T : tech) :
  Year m <> [] ->
  (0 <= Discount_rate m)%Q ->
  let S := Z.quot (Scale_Y_to m) (py_len (Year m)) in
  let x := (1 / (1 + Discount_rate m))%Q in
  exists v,
    calc_disc_opex exact self m opex T = Ok v /\
    (v == Qsum
            (flat_map
               (fun Y =>
                  flat_map
                    (fun Y2 =>
                       map (fun N =>
                              opex N T Y
                              * x ^ (Y2 + start_disc_opex self + (Y - 1) * S))
                         (Node m))
                    (py_range S))
               (Year m))
          + Qsum
              (flat_map
                 (fun Y => map (fun N => opex N T (hi (Year m)) * x ^ Y)
                             (Node m))
                 (missing_years m (start_disc_opex self)
                    (py_len (Year m) * S))))%Q.
Proof.
  intros Hne Hr S x.
  pose proof (py_len_pos _ Hne) as Hlen.
  assert (Hx : ~ (x == 0)%Q).
  { unfold x. intro E.
    assert (P : (0 < 1 + Discount_rate m)%Q) by lra.
    pose proof (Qinv_lt_0_compat _ P) as I.
    unfold Qdiv in E. rewrite Qmult_1_l in E. lra. }
  unfold calc_disc_opex, py_int_div.
  replace (py_len (Year m) =? 0) with false
    by (symmetry; apply Z.eqb_neq; lia).
  cbn [bind div number add exact].
  rewrite py_div_ok by (intro E; lra).
  cbn [bind]. rewrite (py_max_hi _ Hne). cbn [bind].
  fold S x. unfold py_sum_numbers. cbn [number exact].
  rewrite (sum_from_exact _
             (flat_map
                (fun Y =>
                   flat_map
                     (fun Y2 =>
                        map (fun N =>
                               (opex N T Y
                                * x ^ (Y2 + start_disc_opex self + (Y - 1) * S))%Q)
                          (Node m))
                     (py_range S))
                (Year m)) 0%Q).
  2:{ apply Forall2_flat_map_same. intros Y _.
      apply Forall2_flat_map_same. intros Y2 _.
      apply Forall2_map_same. intros N _.
      apply discounted_exact. exact Hx. }
  cbn [bind].
  rewrite (sum_from_exact _
             (flat_map
                (fun Y => map (fun N => (opex N T (hi (Year m)) * x ^ Y)%Q)
                            (Node m))
                (missing_years m (start_disc_opex self)
                   (py_len (Year m) * S))) 0%Q).
  2:{ apply Forall2_flat_map_same. intros Y _.
      apply Forall2_map_same. intros N _.
      apply discounted_exact. exact Hx. }
  cbn [bind]. eexists. split; [reflexivity|]. reflexivity.
Qed.


(** *** Monotone arithmetic *)

Section Monotone.

Variable ar : arithmetic.
Hypothesis Hmono : monotone ar.

Lemma nonneg_number (q : Q) : (0 <= q)%Q -> nonneg ar (number ar q).
Proof. intro H. unfold nonneg. apply (number_mono ar Hmono). exact H. Qed.

(** Two sums whose terms are pointwise ordered are ordered. *)
Lemma sum_from_mono (l2 l1 : list (result (num ar))) :
  Forall2 (fun t2 t1 =>
             exists x2 x1, t2 = Ok x2 /\ t1 = Ok x1 /\
                           leb ar x2 x1 = true /\ nonneg ar x2) l2 l1 ->
  forall total2 total1,
    nonneg ar total2 -> leb ar total2 total1 = true ->
    exists s2 s1,
      sum_from ar total2 l2 = Ok s2 /\ sum_from ar total1 l1 = Ok s1 /\
      leb ar s2 s1 = true /\ nonneg ar s2.
Proof.
  induction 1 as [|t2 t1 l2 l1 (x2 & x1 & -> & -> & Hx & Hx0) _ IH];
    intros total2 total1 H0 Hle.
  - exists total2, total1. repeat split; assumption.
  - cbn [sum_from bind]. apply IH.
    + apply (add_nonneg ar Hmono); assumption.
    + apply (add_mono ar Hmono); assumption.
Qed.

(** A discounted value at a smaller weight is no larger. *)
Lemma discounted_mono (c : Q) (x2 x1 : num ar) (e : Z) :
  (0 <= c)%Q -> 0 <= e ->
  nonneg ar x2 -> leb ar x2 x1 = true -> leb ar x1 (number ar 1) = true ->
  exists y2 y1,
    discounted ar (number ar c) x2 e = Ok y2 /\
    discounted ar (number ar c) x1 e = Ok y1 /\
    leb ar y2 y1 = true /\ nonneg ar y2.
Proof.
  intros Hc He H0 Hle H1. unfold discounted.
  destruct (pow_mono ar Hmono x2 x1 e He H0 Hle H1)
    as (w2 & w1 & -> & -> & Hw & Hw0 & Hw1).
  cbn [bind].
  destruct (mul_mono ar Hmono c w2 w1 Hc Hw0 Hw Hw1) as [Hm Hm0].
  eexists. eexists. split; [reflexivity|]. split; [reflexivity|].
  split; assumption.
Qed.

Lemma discounts_no_more_holds (self : OptSys) (m1 m2 : model) (c : Q)
  (T : tech) :
  same_horizon m1 m2 ->
  Year m1 <> [] ->
  (forall Y, In Y (Year m1) -> 1 <= Y) ->
  0 <= Scale_Y_to m1 ->
  0 <= start_disc_opex self ->
  (0 <= c)%Q ->
  (0 <= Discount_rate m1)%Q ->
  (Discount_rate m1 <= Discount_rate m2)%Q ->
  discounts_no_more ar self m1 m2 (fun _ _ _ => number ar c) T.
Proof.
  intros (HY & HN & HS) HYne Hyears Hscale Hoff Hc Hr1 Hr12.
  pose proof (py_len_pos _ HYne) as Hlen.
  assert (HS0 : 0 <= Z.quot (Scale_Y_to m1) (py_len (Year m1)))
    by (apply Z.quot_pos; lia).
  assert (HSle : py_len (Year m1) * Z.quot (Scale_Y_to m1) (py_len (Year m1))
                 <= Scale_Y_to m1).
  { assert (Hlen0 : py_len (Year m1) <> 0) by lia.
    pose proof (Z.mul_quot_le (Scale_Y_to m1) (py_len (Year m1))
                  Hscale Hlen0). lia. }
  (* the two weights *)
  assert (Hb1 : leb ar (number ar 1)
                  (add ar (number ar 1) (number ar (Discount_rate m1))) = true)
    by (apply (one_plus ar Hmono); exact Hr1).
  assert (Hb12 : leb ar (add ar (number ar 1) (number ar (Discount_rate m1)))
                   (add ar (number ar 1) (number ar (Discount_rate m2)))
                 = true).
  { apply (add_mono ar Hmono).
    - apply nonneg_number. discriminate.
    - apply nonneg_number. exact Hr1.
    - apply (number_mono ar Hmono). apply Qle_refl.
    - apply (number_mono ar Hmono). exact Hr12. }
  destruct (div_antitone ar Hmono _ _ Hb1 Hb12)
    as (x1 & x2 & Hx1 & Hx2 & Hx21 & Hx20 & Hx11).
  unfold discounts_no_more, calc_disc_opex, missing_years.
  rewrite <- HY, <- HN, <- HS.
  unfold py_int_div.
  replace (py_len (Year m1) =? 0) with false
    by (symmetry; apply Z.eqb_neq; lia).
  cbn [bind]. rewrite Hx1, Hx2. cbn [bind].
  rewrite (py_max_hi _ HYne). cbn [bind].
  set (S := Z.quot (Scale_Y_to m1) (py_len (Year m1))) in *.
  unfold py_sum_numbers.
  assert (Hzero : nonneg ar (number ar 0))
    by (apply nonneg_number; apply Qle_refl).
  (* the sampled years *)
  destruct (sum_from_mono
              (flat_map
                 (fun Y =>
                    flat_map
                      (fun Y2 =>
                         map (fun N : node =>
                                discounted ar (number ar c) x2
                                  (Y2 + start_disc_opex self + (Y - 1) * S))
                           (Node m1))
                      (py_range S))
                 (Year m1))
              (flat_map
                 (fun Y =>
                    flat_map
                      (fun Y2 =>
                         map (fun N : node =>
                                discounted ar (number ar c) x1
                                  (Y2 + start_disc_opex self + (Y - 1) * S))
                           (Node m1))
                      (py_range S))
                 (Year m1)))
    with (total2 := number ar 0) (total1 := number ar 0)
    as (s2 & s1 & Hs2 & Hs1 & Hs & Hs0).
  { apply Forall2_flat_map_same. intros Y HYin.
    apply Forall2_flat_map_same. intros Y2 HY2.
    apply Forall2_map_same. intros N _.
    apply py_range_In in HY2. specialize (Hyears Y HYin).
    apply discounted_mono; try assumption. nia. }
  { exact Hzero. }
  { exact Hzero. }
  (* the missing years *)
  destruct (sum_from_mono
              (flat_map
                 (fun Y => map (fun N : node =>
                                  discounted ar (number ar c) x2 Y)
                             (Node m1))
                 (map (fun i => Scale_Y_to m1 - i - (1 - start_disc_opex self))
                    (py_range (Scale_Y_to m1 - py_len (Year m1) * S))))
              (flat_map
                 (fun Y => map (fun N : node =>
                                  discounted ar (number ar c) x1 Y)
                             (Node m1))
                 (map (fun i => Scale_Y_to m1 - i - (1 - start_disc_opex self))
                    (py_range (Scale_Y_to m1 - py_len (Year m1) * S)))))
    with (total2 := number ar 0) (total1 := number ar 0)
    as (t2 & t1 & Ht2 & Ht1 & Ht & Ht0).
  { apply Forall2_flat_map_same. intros e He.
    apply Forall2_map_same. intros N _.
    apply in_map_iff in He. destruct He as (i & <- & Hi).
    apply py_range_In in Hi.
    apply discounted_mono; try assumption. lia. }
  { exact Hzero. }
  { exact Hzero. }
  rewrite Hs1, Hs2. cbn [bind]. rewrite Ht1, Ht2. cbn [bind].
  eexists. eexists. split; [reflexivity|]. split; [reflexivity|].
  apply (add_mono ar Hmono); assumption.
Qed.

End Monotone.



(** ** Round trips of the calendar steps *)

(** The forward step from a sampled instant other than the last one lands
    on a sampled instant from which the backward step returns. *)
Lemma step_forward_and_back (m : model) (t : time_stamp) :
  regular_calendar m ->
  sampled m t ->
  t <> last_instant m ->
  exists t',
    next_time_step m t = Ok t' /\
    sampled m t' /\
    previous_time_stamp m t' = Ok t.
Proof.
  intros (Gs & Gh & Gd & Gy) Hs Hlast.
  pose proof (sampled_calendar_nonempty m t Hs) as Hne.
  destruct t as [[[Y D] H] sH]. destruct Hs as (HY & HD & HH & HsH).
  destruct Gs as [Ps Gs], Gh as [Ph Gh], Gd as [Pd Gd], Gy as [Py Gy].
  destruct (sampled_bounds _ _ HsH) as (_ & Ls & Us & Bs).
  destruct (sampled_bounds _ _ HH) as (_ & Lh & Uh & Bh).
  destruct (sampled_bounds _ _ HD) as (_ & Ld & Ud & Bd).
  destruct (sampled_bounds _ _ HY) as (_ & Ly & Uy & By).
  destruct (Gs sH HsH) as (Gs1 & Gs2 & _ & _).
  destruct (Gh H HH) as (Gh1 & Gh2 & _ & _).
  destruct (Gd D HD) as (Gd1 & Gd2 & _ & _).
  destruct (Gy Y HY) as (Gy1 & Gy2 & _ & _).
  destruct (next_time_step_cases m Y D H sH Hne) as (N1 & N2 & N3 & N4 & _).
  destruct (Z_le_gt_dec (sH + Delta_sH m) (hi (SubHour m))) as [As | As].
  { exists (Y, D, H, sH + Delta_sH m).
    split; [apply N1; exact As|]. split; [simpl; auto|].
    destruct (previous_time_stamp_cases m Y D H (sH + Delta_sH m) Hne)
      as (P1 & _).
    rewrite P1 by lia.
    replace (sH + Delta_sH m - Delta_sH m) with sH by lia. reflexivity. }
  assert (Es : sH = hi (SubHour m)) by (apply Gs2; lia).
  destruct (Z_le_gt_dec (H + Delta_H m) (hi (Hour m))) as [Ah | Ah].
  { exists (Y, D, H + Delta_H m, lo (SubHour m)).
    split; [apply N2; lia|]. split; [simpl; auto|].
    destruct (previous_time_stamp_cases m Y D (H + Delta_H m)
                (lo (SubHour m)) Hne) as (_ & P2 & _).
    rewrite P2 by lia. rewrite Es.
    replace (H + Delta_H m - Delta_H m) with H by lia. reflexivity. }
  assert (Eh : H = hi (Hour m)) by (apply Gh2; lia).
  destruct (Z_le_gt_dec (D + Delta_D m) (hi (Day m))) as [Ad | Ad].
  { exists (Y, D + Delta_D m, lo (Hour m), lo (SubHour m)).
    split; [apply N3; lia|]. split; [simpl; auto|].
    destruct (previous_time_stamp_cases m Y (D + Delta_D m) (lo (Hour m))
                (lo (SubHour m)) Hne) as (_ & _ & P3 & _).
    rewrite P3 by lia. rewrite Es, Eh.
    replace (D + Delta_D m - Delta_D m) with D by lia. reflexivity. }
  assert (Ed : D = hi (Day m)) by (apply Gd2; lia).
  destruct (Z_le_gt_dec (Y + Delta_Y m) (hi (Year m))) as [Ay | Ay].
  { exists (Y + Delta_Y m, lo (Day m), lo (Hour m), lo (SubHour m)).
    split; [apply N4; lia|]. split; [simpl; auto|].
    destruct (previous_time_stamp_cases m (Y + Delta_Y m) (lo (Day m))
                (lo (Hour m)) (lo (SubHour m)) Hne) as (_ & _ & _ & P4).
    rewrite P4 by lia. rewrite Es, Eh, Ed.
    replace (Y + Delta_Y m - Delta_Y m) with Y by lia. reflexivity. }
  assert (Ey : Y = hi (Year m)) by (apply Gy2; lia).
  exfalso. apply Hlast. unfold last_instant. congruence.
Qed.

(** X1. On a regular calendar the backward step undoes the forward step at
    every sampled instant but the last one, and the forward step lands on a
    sampled instant. *)
Theorem next_then_previous (m : model) (t : time_stamp) :
  regular_calendar m ->
  sampled m t ->
  t <> last_instant m ->
  exists t',
    next_time_step m t = Ok t' /\
    sampled m t' /\
    previous_time_stamp m t' = Ok t.
Proof.
  intros (Gs & Gh & Gd & Gy) Hs Hlast.
  pose proof (sampled_calendar_nonempty m t Hs) as Hne.
  destruct t as [[[Y D] H] sH]. destruct Hs as (HY & HD & HH & HsH).
  destruct Gs as [Ps Gs], Gh as [Ph Gh], Gd as [Pd Gd], Gy as [Py Gy].
  destruct (sampled_bounds _ _ HsH) as (_ & Ls & Us & Bs).
  destruct (sampled_bounds _ _ HH) as (_ & Lh & Uh & Bh).
  destruct (sampled_bounds _ _ HD) as (_ & Ld & Ud & Bd).
  destruct (sampled_bounds _ _ HY) as (_ & Ly & Uy & By).
  destruct (Gs sH HsH) as (Gs1 & Gs2 & _ & _).
  destruct (Gh H HH) as (Gh1 & Gh2 & _ & _).
  destruct (Gd D HD) as (Gd1 & Gd2 & _ & _).
  destruct (Gy Y HY) as (Gy1 & Gy2 & _ & _).
  destruct (next_time_step_cases m Y D H sH Hne) as (N1 & N2 & N3 & N4 & _).
  destruct (Z_le_gt_dec (sH + Delta_sH m) (hi (SubHour m))) as [As | As].
  { exists (Y, D, H, sH + Delta_sH m).
    split; [apply N1; exact As|]. split; [simpl; auto|].
    destruct (previous_time_stamp_cases m Y D H (sH + Delta_sH m) Hne)
      as (P1 & _).
    rewrite P1 by lia.
    replace (sH + Delta_sH m - Delta_sH m) with sH by lia. reflexivity. }
  assert (Es : sH = hi (SubHour m)) by (apply Gs2; lia).
  destruct (Z_le_gt_dec (H + Delta_H m) (hi (Hour m))) as [Ah | Ah].
  { exists (Y, D, H + Delta_H m, lo (SubHour m)).
    split; [apply N2; lia|]. split; [simpl; auto|].
    destruct (previous_time_stamp_cases m Y D (H + Delta_H m)
                (lo (SubHour m)) Hne) as (_ & P2 & _).
    rewrite P2 by lia. rewrite Es.
    replace (H + Delta_H m - Delta_H m) with H by lia. reflexivity. }
  assert (Eh : H = hi (Hour m)) by (apply Gh2; lia).
  destruct (Z_le_gt_dec (D + Delta_D m) (hi (Day m))) as [Ad | Ad].
  { exists (Y, D + Delta_D m, lo (Hour m), lo (SubHour m)).
    split; [apply N3; lia|]. split; [simpl; auto|].
    destruct (previous_time_stamp_cases m Y (D + Delta_D m) (lo (Hour m))
                (lo (SubHour m)) Hne) as (_ & _ & P3 & _).
    rewrite P3 by lia. rewrite Es, Eh.
    replace (D + Delta_D m - Delta_D m) with D by lia. reflexivity. }
  assert (Ed : D = hi (Day m)) by (apply Gd2; lia).
  destruct (Z_le_gt_dec (Y + Delta_Y m) (hi (Year m))) as [Ay | Ay].
  { exists (Y + Delta_Y m, lo (Day m), lo (Hour m), lo (SubHour m)).
    split; [apply N4; lia|]. split; [simpl; auto|].
    destruct (previous_time_stamp_cases m (Y + Delta_Y m) (lo (Day m))
                (lo (Hour m)) (lo (SubHour m)) Hne) as (_ & _ & _ & P4).
    rewrite P4 by lia. rewrite Es, Eh, Ed.
    replace (Y + Delta_Y m - Delta_Y m) with Y by lia. reflexivity. }
  assert (Ey : Y = hi (Year m)) by (apply Gy2; lia).
  exfalso. apply Hlast. unfold last_instant. congruence.
Qed.

(** X2. On a regular calendar the forward step undoes the backward step at
    every sampled instant, the first instant of a year and of the whole
    period included. *)
Theorem previous_then_next (m : model) (t : time_stamp) :
  regular_calendar m ->
  sampled m t ->
  exists p,
    previous_time_stamp m t = Ok p /\
    next_time_step m p = Ok t.
Proof.
  intros (Gs & Gh & Gd & Gy) Hs.
  pose proof (sampled_calendar_nonempty m t Hs) as Hne.
  destruct t as [[[Y D] H] sH]. destruct Hs as (HY & HD & HH & HsH).
  destruct Gs as [Ps Gs], Gh as [Ph Gh], Gd as [Pd Gd], Gy as [Py Gy].
  destruct (sampled_bounds _ _ HsH) as (_ & Ls & Us & Bs).
  destruct (sampled_bounds _ _ HH) as (_ & Lh & Uh & Bh).
  destruct (sampled_bounds _ _ HD) as (_ & Ld & Ud & Bd).
  destruct (sampled_bounds _ _ HY) as (_ & Ly & Uy & By).
  destruct (Gs sH HsH) as (_ & _ & _ & Gs4).
  destruct (Gh H HH) as (_ & _ & _ & Gh4).
  destruct (Gd D HD) as (_ & _ & _ & Gd4).
  destruct (previous_time_stamp_cases m Y D H sH Hne) as (P1 & P2 & P3 & P4).
  destruct (Z_le_gt_dec (lo (SubHour m)) (sH - Delta_sH m)) as [As | As].
  { exists (Y, D, H, sH - Delta_sH m). split; [apply P1; exact As|].
    destruct (next_time_step_cases m Y D H (sH - Delta_sH m) Hne) as (N1 & _).
    rewrite N1 by lia.
    replace (sH - Delta_sH m + Delta_sH m) with sH by lia. reflexivity. }
  assert (Es : sH = lo (SubHour m)) by (apply Gs4; lia).
  destruct (Z_le_gt_dec (lo (Hour m)) (H - Delta_H m)) as [Ah | Ah].
  { exists (Y, D, H - Delta_H m, hi (SubHour m)). split; [apply P2; lia|].
    destruct (next_time_step_cases m Y D (H - Delta_H m) (hi (SubHour m)) Hne)
      as (_ & N2 & _).
    rewrite N2 by lia. rewrite Es.
    replace (H - Delta_H m + Delta_H m) with H by lia. reflexivity. }
  assert (Eh : H = lo (Hour m)) by (apply Gh4; lia).
  destruct (Z_le_gt_dec (lo (Day m)) (D - Delta_D m)) as [Ad | Ad].
  { exists (Y, D - Delta_D m, hi (Hour m), hi (SubHour m)).
    split; [apply P3; lia|].
    destruct (next_time_step_cases m Y (D - Delta_D m) (hi (Hour m))
                (hi (SubHour m)) Hne) as (_ & _ & N3 & _).
    rewrite N3 by lia. rewrite Es, Eh.
    replace (D - Delta_D m + Delta_D m) with D by lia. reflexivity. }
  assert (Ed : D = lo (Day m)) by (apply Gd4; lia).
  exists (Y - Delta_Y m, hi (Day m), hi (Hour m), hi (SubHour m)).
  split; [apply P4; lia|].
  destruct (next_time_step_cases m (Y - Delta_Y m) (hi (Day m)) (hi (Hour m))
              (hi (SubHour m)) Hne) as (_ & _ & _ & N4 & _).
  rewrite N4 by lia. rewrite Es, Eh, Ed.
  replace (Y - Delta_Y m + Delta_Y m) with Y by lia. reflexivity.
Qed.

Ltac spaced_list :=
  split; [simpl; lia|];
  intros x Hx; simpl in Hx;
  repeat (destruct Hx as [<- | Hx]); try contradiction;
  vm_compute; repeat split; intros; auto; try discriminate;
  try (exfalso; congruence); tauto.

Lemma toy_default_regular : regular_calendar toy_default.
Proof. unfold regular_calendar. split; [|split; [|split]]; spaced_list. Qed.
(** From the last half hour of day 2 in year 1 the step lands on the first
    half hour of year 2, and the backward step returns. *)
Lemma next_then_previous_witness :
  exists t',
    next_time_step toy_default (1, 2, 1, 1) = Ok t' /\
    sampled toy_default t' /\
    previous_time_stamp toy_default t' = Ok (1, 2, 1, 1).
Proof.
  apply (next_then_previous toy_default (1, 2, 1, 1)).
  - exact toy_default_regular.
  - simpl. auto 10.
  - vm_compute. discriminate.
Defined.

Lemma previous_then_next_witness :
  exists p,
    previous_time_stamp toy_default (2, 1, 0, 0) = Ok p /\
    next_time_step toy_default p = Ok (2, 1, 0, 0).
Proof.
  apply (previous_then_next toy_default (2, 1, 0, 0)).
  - exact toy_default_regular.
  - simpl. auto 10.
Defined.

(** ** Energy conservation over the representative period *)

Section StorageCycle.

Variable m : model.
Variables (N : node) (StoreT : tech) (F F1 : fuel).
Variables (sigma : assignment) (rho : components).

Hypothesis Hregular : regular_calendar m.
Hypothesis Hstart : Y_start m <= lo (Year m).
Hypothesis Hallowed :
  forall Y, In Y (Year m) -> storage_allowed m N StoreT Y = true.
Hypothesis Hsettles : settles m F1 = true.
Hypothesis Hfuel : py_first (input_fuels m StoreT) = Ok F.
Hypothesis Hsubst : F_subst m F F1 = true.
Hypothesis Heff : ~ (Eff m StoreT == 0)%Q.
Hypothesis Hbalance :
  forall t, sampled m t -> satisfies sigma rho (balance_rule_at m N StoreT F1 t).

(** What the balance constraint at a sampled [t] says, given the time stamp
    [pre] before it. *)
Lemma balance_at (t pre : time_stamp) :
  sampled m t ->
  previous_time_stamp m t = Ok pre ->
  (sigma (level_at N StoreT F1 t)
   == sigma (previous_level m N StoreT F1 pre)
      + net_charge m sigma N StoreT F F1 t)%Q.
Proof.
  intros Hs Hpre.
  pose proof (sampled_calendar_nonempty m t Hs) as Hne.
  destruct (Hbalance t Hs) as (o & Ho & Hresp).
  destruct t as [[[Y D] H] sH].
  assert (HY : In Y (Year m)) by (destruct Hs as [HY _]; exact HY).
  unfold balance_rule_at in Ho.
  rewrite (balance_rule_resolved m N StoreT F F1 Y D H sH pre Hne
             (Hallowed Y HY) Hsettles Hfuel Hsubst Heff Hpre) in Ho.
  destruct (previous_level_declared m pre); [|discriminate Ho].
  inversion Ho; subst o. simpl in Hresp. unfold level_at, net_charge.
  rewrite Hresp.
  set (a := (sigma (f_cons N StoreT F F1 Y D H sH) * Eff m StoreT
             * calc_delta_t m)%Q).
  set (b := (sigma (f_prod N StoreT F1 Y D H sH) / Eff m StoreT
             * calc_delta_t m)%Q).
  ring.
Qed.

(** Along the forward walk from a sampled instant, as long as the last
    instant is not passed, the level changes by the net charges. *)
Lemma level_along_trail (n : nat) (t : time_stamp) :
  sampled m t ->
  (forall k, (k < n)%nat -> forward m k t <> last_instant m) ->
  sampled m (forward m n t) /\
  (sigma (level_at N StoreT F1 (forward m n t))
   == sigma (level_at N StoreT F1 t)
      + Qsum (map (net_charge m sigma N StoreT F F1) (tl (trail m n t))))%Q.
Proof.
  revert t. induction n as [|n IH]; intros t Hs Hbefore.
  - simpl. split; [exact Hs|]. unfold Qsum. simpl. ring.
  - assert (Hnl : t <> last_instant m) by (apply (Hbefore 0%nat); lia).
    destruct (step_forward_and_back m t Hregular Hs Hnl) as (t' & Hn & Hs' & Hp).
    pose proof (step_or_stay_next m t t' Hn) as Hstep.
    destruct (IH t' Hs') as [Hsn Hlev].
    { intros k Hk. specialize (Hbefore (S k)). simpl in Hbefore.
      rewrite Hstep in Hbefore. apply Hbefore. lia. }
    cbn [forward trail tl]. rewrite Hstep. split; [exact Hsn|].
    rewrite Hlev, (trail_head m n t'). cbn [map]. rewrite Qsum_cons.
    rewrite (balance_at t' t Hs' Hp).
    assert (Hprev : previous_level m N StoreT F1 t = level_at N StoreT F1 t).
    { destruct t as [[[Y D] H] sH]. destruct Hs as (HY & _).
      destruct (sampled_bounds _ _ HY) as (_ & _ & _ & By).
      unfold previous_level, level_at.
      rewrite (ltb_false_le Y (Y_start m)) by lia.
      rewrite (ltb_false_le Y (lo (Year m))) by lia. reflexivity. }
    rewrite Hprev. cbn [tl]. ring.
Qed.

(** X3. On a regular calendar that starts no earlier than [Y_start], with
    storage allowed in every sampled year: if an assignment satisfies the
    storage balance at every sampled instant and the end-level constraint,
    the net charges along the walk from the first to the last sampled
    instant sum to zero -- the storage neither gains nor loses energy over
    the representative period. *)
Theorem storage_energy_conserved (n : nat) :
  calendar_nonempty m ->
  forward m n (first_instant m) = last_instant m ->
  (forall k, (k < n)%nat -> forward m k (first_instant m) <> last_instant m) ->
  satisfies sigma rho (end_storage_energy_level_constraint_rule m N StoreT F1) ->
  (Qsum (map (net_charge m sigma N StoreT F F1) (trail m n (first_instant m)))
   == 0)%Q.
Proof.
  intros Hne Hreach Hbefore (oe & Hoe & Hresp_end).
  pose proof Hne as (HsH0 & HH0 & HD0 & HY0).
  assert (Hfirst : sampled m (first_instant m)).
  { unfold first_instant. simpl.
    repeat split; apply lo_spec; assumption. }
  destruct (level_along_trail n (first_instant m) Hfirst Hbefore)
    as [_ Hlev].
  rewrite Hreach in Hlev.
  (* the first balance starts from the free start level *)
  destruct Hregular as (_ & _ & _ & [Py _]).
  destruct (previous_time_stamp_total m (first_instant m) Hne) as [pre Hpre].
  pose proof (balance_at (first_instant m) pre Hfirst Hpre) as Hb0.
  assert (Hpre0 :
    previous_level m N StoreT F1 pre = start_storage_energy_level N StoreT F1).
  { destruct (previous_time_stamp_cases m (lo (Year m)) (lo (Day m))
                (lo (Hour m)) (lo (SubHour m)) Hne) as (_ & _ & _ & P4).
    destruct Hregular as ([Ps _] & [Ph _] & [Pd _] & _).
    unfold first_instant in Hpre. rewrite P4 in Hpre by lia.
    inversion Hpre; subst pre. unfold previous_level.
    rewrite (ltb_true_lt (lo (Year m) - Delta_Y m) (lo (Year m))) by lia.
    rewrite orb_true_r. reflexivity. }
  rewrite Hpre0 in Hb0.
  (* the end constraint closes the cycle *)
  rewrite (end_rule_resolved m N StoreT F F1 Hne Hfuel) in Hoe.
  rewrite (Hallowed (hi (Year m)) (proj1 (hi_spec _ HY0))), Hsubst, Hsettles
    in Hoe.
  cbn [andb] in Hoe. inversion Hoe; subst oe.
  assert (Hend :
    (sigma (level_at N StoreT F1 (last_instant m))
     == sigma (start_storage_energy_level N StoreT F1))%Q)
    by exact Hresp_end.
  rewrite (trail_head m n (first_instant m)). cbn [map]. rewrite Qsum_cons.
  lra.
Qed.


End StorageCycle.

Lemma cycle_assignment_balanced (t : time_stamp) :
  sampled toy_default t ->
  satisfies cycle_assignment (fun _ => 8%Q)
    (balance_rule_at toy_default Site Battery Electricity t).
Proof.
  destruct t as [[[Y D] H] sH]. intros (HY & HD & HH & HsH).
  simpl in HY, HD, HH, HsH.
  destruct HY as [<- | [<- | []]]; destruct HD as [<- | [<- | []]];
    destruct HH as [<- | [<- | []]]; destruct HsH as [<- | [<- | []]];
    (eexists; split; [vm_compute; reflexivity | vm_compute; reflexivity]).
Qed.

(** The sixteen half-hour steps of [toy_default]: 9/10 kWh stored in the
    first, 9/10 kWh drawn in the last, nothing in between. *)
Lemma storage_energy_conserved_witness :
  (Qsum (map (net_charge toy_default cycle_assignment Site Battery
                Electricity Electricity)
           (trail toy_default 15 (first_instant toy_default)))
   == 0)%Q.
Proof.
  apply (storage_energy_conserved toy_default Site Battery Electricity
           Electricity cycle_assignment (fun _ => 8%Q)).
  - exact toy_default_regular.
  - vm_compute. discriminate.
  - intros Y _. reflexivity.
  - reflexivity.
  - reflexivity.
  - reflexivity.
  - intro H. discriminate H.
  - exact cycle_assignment_balanced.
  - repeat split; discriminate.
  - vm_compute. reflexivity.
  - intros k Hk.
    do 15 (destruct k as [|k]; [vm_compute; discriminate|]).
    lia.
  - eexists. split; [vm_compute; reflexivity | vm_compute; reflexivity].
Defined.


Lemma late_assignment_balanced (t : time_stamp) :
  sampled toy_late_storage t ->
  satisfies late_assignment (fun _ => 8%Q)
    (balance_rule_at toy_late_storage Site Battery Electricity t).
Proof.
  destruct t as [[[Y D] H] sH]. intros (HY & HD & HH & HsH).
  simpl in HY, HD, HH, HsH.
  destruct HY as [<- | [<- | []]]; destruct HD as [<- | [<- | []]];
    destruct HH as [<- | [<- | []]]; destruct HsH as [<- | [<- | []]];
    (eexists; split; [vm_compute; reflexivity | vm_compute; reflexivity]).
Qed.


(** ** Sums of constant and of pointwise equal terms *)

Lemma Qsum_map_ext {A : Type} (f g : A -> Q) (l : list A) :
  (forall a, In a l -> (f a == g a)%Q) ->
  (Qsum (map f l) == Qsum (map g l))%Q.
Proof.
  induction l as [|a l IH]; intro H; simpl; [reflexivity|].
  rewrite !Qsum_cons, IH.
  - rewrite (H a) by (left; reflexivity). reflexivity.
  - intros b Hb. apply H. right. exact Hb.
Qed.

Lemma Qsum_const {A : Type} (c : Q) (l : list A) :
  (Qsum (map (fun _ => c) l) == inject_Z (py_len l) * c)%Q.
Proof.
  induction l as [|a l IH]; cbn [map].
  - unfold Qsum, py_len. simpl. ring.
  - rewrite Qsum_cons, IH. unfold py_len.
    change (List.length (a :: l)) with (S (List.length l)).
    rewrite Nat2Z.inj_succ. unfold Z.succ. rewrite inject_Z_plus. ring.
Qed.


Lemma Qsum_const_ext {A : Type} (f : A -> Q) (c : Q) (l : list A) :
  (forall a, In a l -> (f a == c)%Q) ->
  (Qsum (map f l) == inject_Z (py_len l) * c)%Q.
Proof.
  intro H. rewrite <- Qsum_const. apply Qsum_map_ext. exact H.
Qed.


(** ** Bounds that survive a skipped constraint *)

Lemma Qltb_false (a b : Q) : Qltb a b = false -> (b <= a)%Q.
Proof.
  unfold Qltb. rewrite negb_false_iff. apply Qle_bool_iff.
Qed.

(** The common shape of the four rules: [Min <= v <= Max] is emitted unless
    [Min <= 0] and [Max] is infinite, and then it holds of every
    non-negative value. *)
Lemma ranged_or_vacuous (lower : Q) (upper : bound) (v : Q) :
  (0 <= v)%Q ->
  (if Qltb 0 lower || bound_finite upper
   then in_range lower v upper else True) ->
  in_range lower v upper.
Proof.
  intros Hv H.
  destruct (Qltb 0 lower) eqn:El; [exact H|].
  destruct upper as [u|]; [exact H|]. simpl in H.
  apply Qltb_false in El. split; [lra | exact I].
Qed.

(** X8. The rules bounding capacity and storage-volume additions and
    retirements are skipped only when they would say nothing: whatever a
    rule returned, a non-negative value that respects it lies between the
    [Min_] and [Max_] parameters. *)
Theorem addition_bounds_hold (lim : limits) (sigma : assignment)
  (rho : components) (N : node) (T : tech) (Y : Z) :
  ((0 <= sigma (cap_add N T Y))%Q ->
   respects_ranged sigma rho (cap_add_constraint_rule lim N T Y) ->
   in_range (Min_cap_add lim N T Y) (sigma (cap_add N T Y))
     (Max_cap_add lim N T Y)) /\
  ((0 <= sigma (cap_sub N T Y))%Q ->
   respects_ranged sigma rho (cap_sub_constraint_rule lim N T Y) ->
   in_range (Min_cap_sub lim N T Y) (sigma (cap_sub N T Y))
     (Max_cap_sub lim N T Y)) /\
  ((0 <= sigma (storage_vol_add N T Y))%Q ->
   respects_ranged sigma rho (storage_vol_add_constraint_rule lim N T Y) ->
   in_range (Min_storage_vol_add lim N T Y) (sigma (storage_vol_add N T Y))
     (Max_storage_vol_add lim N T Y)) /\
  ((0 <= sigma (storage_vol_sub N T Y))%Q ->
   respects_ranged sigma rho (storage_vol_sub_constraint_rule lim N T Y) ->
   in_range (Min_storage_vol_sub lim N T Y) (sigma (storage_vol_sub N T Y))
     (Max_storage_vol_sub lim N T Y)).
Proof.
  unfold cap_add_constraint_rule, cap_sub_constraint_rule,
    storage_vol_add_constraint_rule, storage_vol_sub_constraint_rule.
  split; [|split; [|split]];
    intros Hv Hresp; apply ranged_or_vacuous; try exact Hv;
    match goal with
    | Hr : respects_ranged _ _ (if ?c then _ else _) |- _ =>
        destruct c; exact Hr
    end.
Qed.

Lemma addition_bounds_hold_witness :
  in_range (Min_cap_add toy_limits Site Wind 1)
    (motion_assignment (cap_add Site Wind 1))
    (Max_cap_add toy_limits Site Wind 1) /\
  in_range (Min_cap_sub toy_limits Site Wind 2)
    (motion_assignment (cap_sub Site Wind 2))
    (Max_cap_sub toy_limits Site Wind 2).
Proof.
  split.
  - refine (proj1 (addition_bounds_hold toy_limits motion_assignment
                     (fun _ => 0%Q) Site Wind 1) _ _).
    + discriminate.
    + split; discriminate.
  - refine (proj1 (proj2 (addition_bounds_hold toy_limits motion_assignment
                            (fun _ => 0%Q) Site Wind 2)) _ _).
    + discriminate.
    + exact I.
Defined.

Lemma bound_pos_not_zero (b : bound) :
  bound_pos b = true -> bound_is_zero b = false.
Proof.
  destruct b as [q|]; [|reflexivity]. simpl. intro Hq.
  apply Qltb_lt in Hq.
  destruct (Qeq_bool q 0) eqn:E; [|reflexivity].
  apply Qeq_bool_iff in E. lra.
Qed.

Lemma bound_zero_not_pos (b : bound) :
  bound_is_zero b = true -> bound_pos b = false.
Proof.
  destruct b as [q|]; [|discriminate]. simpl. intro Hq.
  apply Qeq_bool_iff in Hq.
  destruct (Qltb 0 q) eqn:E; [|reflexivity].
  apply Qltb_lt in E. lra.
Qed.



(** X10. Fixed-quantity deliveries follow the weekly schedule: where
    [Max_f_fix_quant_import] is not 0, an assignment that respects the rule
    delivers nothing outside a scheduled weekday, a scheduled hour and
    sub-hour 0, and at most [Max_f_fix_quant_import] inside; the weekday
    index [(D-1) % 7 + 1] lies in 1..7 and repeats every seven days. *)
Theorem fix_quant_import_on_schedule (m : model) (lim : limits) (N : node)
  (F1 : fuel) (Y D H sH : Z) (sigma : assignment) (rho : components) :
  Max_f_fix_quant_import m N F1 <> 0 ->
  respects sigma rho
    (fuel_fix_quant_import_constraint_rule m lim N F1 Y D H sH) ->
  (~ (sigma (f_fix_quant_import N F1 Y D H sH) == 0)%Q ->
   F_fix_quant_supply_day lim N F1 (weekday D) = true /\
   F_fix_quant_supply_hour lim N F1 H = true /\
   sH = 0) /\
  (F_fix_quant_supply_day lim N F1 (weekday D) = true ->
   F_fix_quant_supply_hour lim N F1 H = true ->
   sH = 0 ->
   (sigma (f_fix_quant_import N F1 Y D H sH)
    <= inject_Z (Max_f_fix_quant_import m N F1))%Q) /\
  1 <= weekday D <= 7 /\
  weekday (D + 7) = weekday D.
Proof.
  intros Hmax Hresp.
  unfold fuel_fix_quant_import_constraint_rule in Hresp.
  apply Z.eqb_neq in Hmax. rewrite Hmax in Hresp.
  split; [|split; [|split]].
  - intro Hnz.
    destruct (F_fix_quant_supply_day lim N F1 (weekday D)) eqn:Ed;
      destruct (F_fix_quant_supply_hour lim N F1 H) eqn:Eh;
      destruct (sH =? 0) eqn:Es; simpl in Hresp;
      try (exfalso; apply Hnz; exact Hresp).
    apply Z.eqb_eq in Es. auto.
  - intros Ed Eh Es. subst sH. rewrite Ed, Eh in Hresp. exact Hresp.
  - unfold weekday. pose proof (Z.mod_pos_bound (D - 1) 7). lia.
  - unfold weekday. f_equal.
    replace (D + 7 - 1) with (D - 1 + 1 * 7) by lia.
    apply Z.mod_add. lia.
Qed.

Lemma fix_quant_import_on_schedule_witness :
  weekday 8 = 1 /\
  (delivery_assignment (f_fix_quant_import Site Electricity 1 8 0 0)
   <= inject_Z (Max_f_fix_quant_import toy_deliveries Site Electricity))%Q.
Proof.
  split; [reflexivity|].
  refine (proj1 (proj2 (fix_quant_import_on_schedule toy_deliveries toy_limits
                          Site Electricity 1 8 0 0 delivery_assignment
                          (fun _ => 0%Q) _ _)) _ _ _).
  - simpl. lia.
  - simpl. discriminate.
  - reflexivity.
  - reflexivity.
  - reflexivity.
Defined.
(** ** Demand, delivery and the balance *)

(** X11. A positive demand for a fuel is met exactly: the delivery rule
    returns the equality of the deliveries, summed over the settlement
    fuels of the demanded fuel, with the demand; and each of these delivery
    variables is drawn from the balance of its settlement fuel, which is
    emitted as a constraint unless that fuel is a VRE fuel. *)
Theorem demand_is_delivered (m : model) (N : node) (F : fuel) (Y D H sH : Z) :
  In F (Fuel m) ->
  (0 < F_demand m N F Y D H sH)%Q ->
  (forall sigma rho,
      respects sigma rho (fuel_delivery_constraint_rule m N F Y D H sH) ->
      (Qsum (map (fun F1 => sigma (f_delivery N F F1 Y D H sH))
               (settlement_fuels_of m F))
       == F_demand m N F Y D H sH)%Q) /\
  (forall F1,
      In F1 (settlement_fuels_of m F) ->
      f_delivery_temp m N F1 Y D H sH
      = py_sum (delivery_terms m N F1 Y D H sH) /\
      In (EVar (f_delivery N F F1 Y D H sH))
        (delivery_terms m N F1 Y D H sH) /\
      (in_set F1 (VreFuel m) = false ->
       fuel_balance_constraint_rule m N F1 Y D H sH
       = Constr (REq (to_expr (balance_supply m N F1 Y D H sH))
                     (to_expr (balance_use m N F1 Y D H sH))))).
Proof.
  intros HF Hdem. apply Qltb_lt in Hdem. split.
  - intros sigma rho Hresp.
    unfold fuel_delivery_constraint_rule in Hresp. rewrite Hdem in Hresp.
    unfold respects, holds in Hresp.
    rewrite eval_py_sum, map_map in Hresp. exact Hresp.
  - intros F1 HF1.
    apply settlement_fuels_of_In in HF1. destruct HF1 as (_ & Hsub & Hset).
    assert (Hin : In (EVar (f_delivery N F F1 Y D H sH))
                    (delivery_terms m N F1 Y D H sH)).
    { unfold delivery_terms. apply in_map_iff. exists F. split; [reflexivity|].
      apply filter_In. split; [exact HF|].
      rewrite Hsub, Hdem, Hset. reflexivity. }
    split; [reflexivity|]. split; [exact Hin|].
    intro Hvre.
    unfold fuel_balance_constraint_rule, balance_settled.
    rewrite Hset, Hvre. cbn [negb andb]. unfold balance.
    rewrite py_eq_expr; [reflexivity|].
    rewrite balance_sides_native.
    destruct (no_variable_term m N F1 Y D H sH) eqn:E; [|reflexivity].
    exfalso. unfold no_variable_term in E.
    rewrite forallb_forall in E.
    specialize (E (f_delivery_temp m N F1 Y D H sH)).
    assert (Hnat : is_native (f_delivery_temp m N F1 Y D H sH) = false).
    { change (f_delivery_temp m N F1 Y D H sH)
        with (py_sum (delivery_terms m N F1 Y D H sH)).
      apply py_sum_native. intro Enil. rewrite Enil in Hin. contradiction. }
    rewrite E in Hnat; [discriminate|].
    unfold balance_terms. simpl. auto 15.
Qed.

(** The demand of 100 kW for electricity in [toy_deliveries] is delivered
    in full from the electricity balance. *)
Lemma demand_is_delivered_witness :
  (Qsum (map (fun F1 => delivery_assignment
                          (f_delivery Site Electricity F1 1 1 0 0))
           (settlement_fuels_of toy_deliveries Electricity))
   == 100)%Q.
Proof.
  refine (proj1 (demand_is_delivered toy_deliveries Site Electricity 1 1 0 0
                   _ _) delivery_assignment (fun _ => 0%Q) _).
  - simpl. auto.
  - reflexivity.
  - vm_compute. reflexivity.
Defined.

(** ** The convergence tracker *)

(** What one pass of the tracker leaves behind: the keys of [pre_lcoe] in
    their order, each with the current mean, and the sum of the absolute
    changes. *)
Lemma track_delta_spec (N : node) (Y : Z) (s : lcoe_state) :
  pre_lcoe (track_delta N Y s)
  = map (fun e => (fst e, lcoEnergy_mean s N (fst e) Y)) (pre_lcoe s) /\
  lcoEnergy_mean (track_delta N Y s) = lcoEnergy_mean s /\
  exists d,
    delta_lcoe (track_delta N Y s) = Fin d /\
    (d == Qsum (map (fun e => Qabs (lcoEnergy_mean s N (fst e) Y - snd e))
                  (pre_lcoe s)))%Q.
Proof.
  unfold track_delta. cbn [pre_lcoe lcoEnergy_mean delta_lcoe].
  set (step := fun (acc : Q * list (fuel * Q)) (entry : fuel * Q) =>
                 ((fst acc
                   + Qabs (lcoEnergy_mean s N (fst entry) Y - snd entry))%Q,
                  snd acc ++ [(fst entry, lcoEnergy_mean s N (fst entry) Y)])).
  assert (Hfold : forall l acc,
    snd (fold_left step l acc)
    = snd acc ++ map (fun e => (fst e, lcoEnergy_mean s N (fst e) Y)) l /\
    (fst (fold_left step l acc)
     == fst acc
        + Qsum (map (fun e => Qabs (lcoEnergy_mean s N (fst e) Y - snd e)) l))%Q).
  { induction l as [|e l IH]; intro acc; cbn [fold_left map].
    - rewrite app_nil_r. split; [reflexivity|]. unfold Qsum. simpl. ring.
    - destruct (IH (step acc e)) as [IH1 IH2]. split.
      + rewrite IH1. unfold step. cbn [snd fst]. rewrite <- app_assoc.
        reflexivity.
      + rewrite IH2, Qsum_cons. unfold step. cbn [fst]. ring. }
  destruct (Hfold (pre_lcoe s) (0%Q, [])) as [H1 H2].
  split; [exact H1|]. split; [reflexivity|].
  eexists. split; [reflexivity|]. rewrite H2. cbn [fst]. ring.
Qed.

Lemma Qsum_all_zero {A : Type} (f : A -> Q) (l : list A) :
  (forall a, In a l -> (f a == 0)%Q) -> (Qsum (map f l) == 0)%Q.
Proof.
  intro H. rewrite (Qsum_const_ext f 0 l H). ring.
Qed.



(** ** The rolling reserve at the end of the horizon *)

(** X17. The rolling reserve is the int 0 where the window or the reserve
    share is not positive.  Where both are positive and the calendar steps
    forward, the window of the last sampled time stamp runs past the last
    sampled year, the year coordinate becomes the smallest sampled day,
    and unless that number is a declared year the rule raises [KeyError]:
    the expression cannot be built. *)
Theorem rolling_reserve_year_end (ar : arithmetic) (m : model) (N : node)
  (StoreT : tech) (F : fuel) :
  (Window_rolling_reserve m N StoreT F <= 0 \/
   (F_rolling_reserve m N StoreT F <= 0)%Q ->
   forall Y D H sH,
     storage_energy_level_rolling_reserve_rule ar m N StoreT F Y D H sH
     = Ok NoReserve) /\
  (calendar_nonempty m ->
   0 < Delta_sH m -> 0 < Delta_H m -> 0 < Delta_D m -> 0 < Delta_Y m ->
   0 < Window_rolling_reserve m N StoreT F ->
   (0 < F_rolling_reserve m N StoreT F)%Q ->
   ~ In (lo (Day m)) (Year_All m) ->
   storage_energy_level_rolling_reserve_rule ar m N StoreT F
     (hi (Year m)) (hi (Day m)) (hi (Hour m)) (hi (SubHour m))
   = Raise KeyError).
Proof.
  split.
  - intros Hoff Y D H sH. unfold storage_energy_level_rolling_reserve_rule.
    destruct Hoff as [Hw | Hs].
    + rewrite (ltb_false_le _ _ Hw). reflexivity.
    + destruct (Qltb 0 (F_rolling_reserve m N StoreT F)) eqn:E.
      * apply Qltb_lt in E. lra.
      * rewrite andb_false_r. reflexivity.
  - intros Hne Ps Ph Pd Py Hw Hs Hundeclared.
    unfold storage_energy_level_rolling_reserve_rule.
    rewrite (ltb_true_lt _ _ Hw), (proj2 (Qltb_lt _ _) Hs). cbn [andb].
    pose proof Hne as (HsH0 & _).
    pose proof (py_len_pos (SubHour m) HsH0) as Hlen.
    destruct (Z.to_nat (Window_rolling_reserve m N StoreT F
                        * py_len (SubHour m))) as [|n] eqn:En; [nia|].
    cbn [rolling_walk].
    destruct (next_time_step_cases m (hi (Year m)) (hi (Day m)) (hi (Hour m))
                (hi (SubHour m)) Hne) as (_ & _ & _ & _ & N5).
    rewrite N5 by lia. cbn [bind]. unfold F_demand_at.
    destruct (mem (lo (Day m)) (Year_All m)) eqn:E.
    + apply mem_In in E. contradiction.
    + reflexivity.
Qed.

(** Sampled days 5 and 6, declared years 1 and 2: the reserve of the last
    half hour cannot be built. *)
Lemma rolling_reserve_year_end_witness :
  storage_energy_level_rolling_reserve_rule exact toy_reserve_undeclared
    Site Battery Electricity 2 6 1 1
  = Raise KeyError.
Proof.
  apply (proj2 (rolling_reserve_year_end exact toy_reserve_undeclared Site
                  Battery Electricity)).
  - repeat split; discriminate.
  - reflexivity.
  - reflexivity.
  - reflexivity.
  - reflexivity.
  - reflexivity.
  - reflexivity.
  - simpl. intros [H | [H | []]]; discriminate H.
Defined.
